(** * pdfTTS: the [PollyTTS] class of [src/main.py]

    A shallow embedding of the text-to-speech pipeline: input resolution
    (PDF, literal string, random sample), the four configuration setters,
    the output file name, the synthesis call and the audio file write.

    Python objects are mutated in place and every method may raise, so the
    methods are embedded in a state-and-exception monad over a [world] that
    holds the [PollyTTS] object, the lines printed so far and the files
    written so far.  The external collaborators (boto3, pypdf, the random
    sources, the file system) are the fields of an [env] record. *)

From Stdlib Require Import ZArith NArith Lia Bool.
From Stdlib Require Import Strings.Ascii Strings.String Strings.Byte.
From stdpp Require Import base strings list gmap.

(** ** Python run-time: exceptions, outcomes, the [try] statement *)

Module Py.

Inductive exit_status :=
| ExitCode (code : Z)
| ExitMessage (msg : string).

(** The exception classes that [src/main.py] names or that its calls can
    raise.  [OSError] stands for the generic [IOError]. *)
Inductive exn :=
| TypeError (msg : string)
| AttributeError (msg : string)
| KeyError (msg : string)
| IndexError (msg : string)
| OSError (msg : string)
| FileNotFoundError (msg : string)
| PermissionError (msg : string)
| PdfReadError (msg : string)
| BotoCoreError (msg : string)
| ClientError (msg : string)
| SystemExit (status : exit_status).

(** [str(e)] *)
Definition exn_str (e : exn) : string :=
  match e with
  | TypeError m | AttributeError m | KeyError m | IndexError m
  | OSError m | FileNotFoundError m | PermissionError m
  | PdfReadError m | BotoCoreError m | ClientError m => m
  | SystemExit (ExitMessage m) => m
  | SystemExit (ExitCode _) => ""
  end.

(** [isinstance] tests for the classes used in [except] clauses. *)
Definition is_TypeError (e : exn) : bool :=
  match e with TypeError _ => true | _ => false end.

Definition is_FileNotFoundError (e : exn) : bool :=
  match e with FileNotFoundError _ => true | _ => false end.

(** [IOError] is an alias of [OSError]; [FileNotFoundError] and
    [PermissionError] are subclasses of it. *)
Definition is_IOError (e : exn) : bool :=
  match e with
  | OSError _ | FileNotFoundError _ | PermissionError _ => true
  | _ => false
  end.

Definition is_BotoCoreError_or_ClientError (e : exn) : bool :=
  match e with BotoCoreError _ | ClientError _ => true | _ => false end.

(** [SystemExit] derives from [BaseException], not from [Exception]. *)
Definition is_Exception (e : exn) : bool :=
  match e with SystemExit _ => false | _ => true end.

Inductive outcome (A : Type) :=
| Return (a : A)
| Raise (e : exn).
Arguments Return {A} a.
Arguments Raise {A} e.

(** A computation over a mutable state [S]: the state reached is kept
    also when the computation raises. *)
Definition M (S A : Type) : Type := S → outcome A * S.

Definition ret {S A} (a : A) : M S A := λ s, (Return a, s).

Definition bind {S A B} (c : M S A) (k : A → M S B) : M S B :=
  λ s, match c s with
       | (Return a, s') => k a s'
       | (Raise e, s') => (Raise e, s')
       end.

Definition raise {S A} (e : exn) : M S A := λ s, (Raise e, s).
Definition get {S} : M S S := λ s, (Return s, s).
Definition modify {S} (f : S → S) : M S unit := λ s, (Return tt, f s).

(** A value or exception handed back by a collaborator. *)
Definition lift {S A} (o : outcome A) : M S A := λ s, (o, s).

#[global] Instance M_ret {S} : MRet (M S) := λ A, ret.
#[global] Instance M_bind {S} : MBind (M S) := λ A B k c, bind c k.

(** [sys.exit(arg)] *)
Definition sys_exit {S A} (status : exit_status) : M S A :=
  raise (SystemExit status).

Record except_clause (S : Type) := Except {
  catches : exn → bool;
  handler : exn → M S unit
}.
Arguments Except {S} catches handler.
Arguments catches {S} e.
Arguments handler {S} e.

(** [try: body / except ...: / else: orelse / finally: finalbody].
    The first clause that matches handles the exception; [orelse] runs
    only when [body] did not raise and is not protected by the clauses;
    [finalbody] runs on every path, and what it raises wins. *)
Definition try_stmt {S} (body : M S unit) (excepts : list (except_clause S))
    (orelse finalbody : M S unit) : M S unit :=
  λ s,
    let '(r1, s1) := body s in
    let '(r2, s2) :=
      match r1 with
      | Return _ => orelse s1
      | Raise e =>
          match List.find (λ c, catches c e) excepts with
          | Some c => handler c e s1
          | None => (Raise e, s1)
          end
      end in
    let '(r3, s3) := finalbody s2 in
    match r3 with
    | Return _ => (r2, s3)
    | Raise e => (Raise e, s3)
    end.

Definition pass {S} : M S unit := ret tt.

End Py.
Import Py.

(** ** [static/options.py] *)

(** Modelled from the spec: [static/options.py] is not among the sources.
    [voice_ids] is the list of voices in the docstring of
    [choose_voice_id]; it is a sequence, since [random.choice] draws from
    it. *)
Definition voice_ids : list string :=
  [ "Aditi"; "Amy"; "Astrid"; "Bianca"; "Brian"; "Camila"; "Carla"; "Carmen";
    "Celine"; "Chantal"; "Conchita"; "Cristiano"; "Dora"; "Emma"; "Enrique";
    "Ewa"; "Filiz"; "Gabrielle"; "Geraint"; "Giorgio"; "Gwyneth"; "Hans";
    "Ines"; "Ivy"; "Jacek"; "Jan"; "Joanna"; "Joey"; "Justin"; "Karl";
    "Kendra"; "Kevin"; "Kimberly"; "Lea"; "Liv"; "Lotte"; "Lucia"; "Lupe";
    "Mads"; "Maja"; "Marlene"; "Mathieu"; "Matthew"; "Maxim"; "Mia"; "Miguel";
    "Mizuki"; "Naja"; "Nicole"; "Olivia"; "Penelope"; "Raveena"; "Ricardo";
    "Ruben"; "Russell"; "Salli"; "Seoyeon"; "Takumi"; "Tatyana"; "Vicki";
    "Vitoria"; "Zeina"; "Zhiyu" ].

(** Modelled from the spec: the formats listed in the docstring of
    [choose_output_format] and in section 6 of the specification. *)
Definition output_formats : list string :=
  [ "json"; "mp3"; "ogg_vorbis"; "pcm" ].

(** Modelled from the spec: the rates listed in the docstring of
    [choose_sample_rate] and in section 6 of the specification. *)
Definition sample_rates : list string :=
  [ "8000"; "16000"; "22050"; "24000" ].

(** Modelled from the spec: the accent table in the docstring of
    [choose_eng_accent].  A Python dict keeps its insertion order, which
    [list(eng_language_code_dict.keys())] exposes, so the table is an
    association list with distinct keys. *)
Definition eng_language_code_dict : list (string * string) :=
  [ ("en-AU", "Australian"); ("en-IN", "Indian"); ("en-IE", "Irish");
    ("en-NZ", "New Zealander Kiwi"); ("en-ZA", "South African");
    ("en-GB", "English"); ("en-US", "American"); ("en-GB-WLS", "Welsh") ].

(** [d.keys()], [k in d] and [d[k]] on an insertion-ordered dict. *)
Definition dict_keys (d : list (string * string)) : list string := d.*1.

Definition dict_contains (d : list (string * string)) (k : string) : bool :=
  bool_decide (k ∈ dict_keys d).

Definition dict_lookup (d : list (string * string)) (k : string)
    : option string :=
  snd <$> List.find (λ kv, bool_decide (kv.1 = k)) d.

(** ** [secrets.token_urlsafe] *)

Module secrets.

(** The URL-safe base64 alphabet of RFC 4648, section 5. *)
Definition alphabet : list ascii :=
  list_ascii_of_string
    "ABCDEFGHIJKLMNOPQRSTUVWXYZabcdefghijklmnopqrstuvwxyz0123456789-_".

Definition pad : ascii := "="%char.

(** The character of a 6-bit group. *)
Definition sextet (n : N) : ascii :=
  nth (N.to_nat (N.land n 63)) alphabet pad.

(** The 24-bit group of three octets. *)
Definition group (a b c : byte) : N :=
  N.lor (N.shiftl (Byte.to_N a) 16)
        (N.lor (N.shiftl (Byte.to_N b) 8) (Byte.to_N c)).

(** [base64.urlsafe_b64encode]: three octets give four characters, a
    last group of one or two octets is padded with [=]. *)
Fixpoint urlsafe_b64encode (bs : list byte) : list ascii :=
  match bs with
  | [] => []
  | [a] =>
      let g := group a "000"%byte "000"%byte in
      [sextet (N.shiftr g 18); sextet (N.shiftr g 12); pad; pad]
  | [a; b] =>
      let g := group a b "000"%byte in
      [sextet (N.shiftr g 18); sextet (N.shiftr g 12);
       sextet (N.shiftr g 6); pad]
  | a :: b :: c :: rest =>
      let g := group a b c in
      sextet (N.shiftr g 18) :: sextet (N.shiftr g 12)
        :: sextet (N.shiftr g 6) :: sextet g :: urlsafe_b64encode rest
  end.

(** [s.rstrip(b"=")] *)
Fixpoint rstrip_pad (s : list ascii) : list ascii :=
  match s with
  | [] => []
  | c :: s' =>
      match rstrip_pad s' with
      | [] => if bool_decide (c = pad) then [] else [c]
      | t => c :: t
      end
  end.

(** [token_urlsafe] applied to the octets that [token_bytes] drew. *)
Definition token_of_bytes (bs : list byte) : string :=
  string_of_list_ascii (rstrip_pad (urlsafe_b64encode bs)).

(** The characters a URL-safe token may hold: letters, digits, [-], [_]. *)
Definition url_safe (c : ascii) : bool :=
  let n := nat_of_ascii c in
  ((65 <=? n) && (n <=? 90)) || ((97 <=? n) && (n <=? 122))
  || ((48 <=? n) && (n <=? 57)) || (n =? 45) || (n =? 95).

End secrets.

(** ** The object and its surroundings *)

(** The line feed that ["\n"] denotes. *)
Definition LF : string := String (ascii_of_nat 10) "".

(** What [boto3.client("polly", ...)] was built from. *)
Record polly_client := PollyClient {
  aws_access_key_id : string;
  aws_secret_access_key : string;
  region_name : string
}.

(** The keyword arguments of [client.synthesize_speech]. *)
Record synthesis_request := SynthesisRequest {
  VoiceId : string;
  OutputFormat : string;
  Text : string;
  LanguageCode : string;
  SampleRate : string
}.

(** The instance attributes set by [PollyTTS.__init__].  The response of
    the service is a dict from field names to payloads; the payload of
    ["AudioStream"] is the content of the stream. *)
Record PollyTTS := {
  pdf_input_path : string;
  str_input : string;
  aws_client_str : string;
  user_file_prefix : string;
  output_filename : string;
  voice_id : string;
  output_format : string;
  sample_rate : string;
  language_code : string;
  use_temp_dir : bool;
  client : option polly_client;
  response : option (gmap string (list byte));
  _access_key : string;
  _secret_access_key : string
}.

(** The collaborators of one run.  [sample_sentences] is the pool of
    [static/options.py], whose content the sources do not give; the other
    fields are the library calls of [src/main.py]: a call returns or
    raises.  [PdfReader] gives, for a path, the pages of the document, each
    with what its [extract_text()] returns or raises.  [random_source]
    and [entropy] are the draws behind [random.choice] and
    [secrets.token_bytes]. *)
Record env := {
  sample_sentences : list string;
  boto3_client : string → string → string → string → outcome polly_client;
  PdfReader : string → outcome (list (outcome string));
  synthesize_speech :
    polly_client → synthesis_request → outcome (gmap string (list byte));
  random_source : nat → nat;
  entropy : nat → byte;
  gettempdir : string;
  open_wb : string → outcome unit
}.

(** The mutable state of a run: the object, the lines printed, the files
    on disk, the draws consumed, the requests the service received and
    whether the response stream has been closed. *)
Record world := {
  self : PollyTTS;
  stdout : list string;
  files : gmap string (list byte);
  draws : nat;
  entropy_used : nat;
  requests : list synthesis_request;
  stream_closed : bool
}.

Definition set_aws_client_str (v : string) (o : PollyTTS) : PollyTTS :=
  {| pdf_input_path := pdf_input_path o; str_input := str_input o;
     aws_client_str := v; user_file_prefix := user_file_prefix o;
     output_filename := output_filename o; voice_id := voice_id o;
     output_format := output_format o; sample_rate := sample_rate o;
     language_code := language_code o; use_temp_dir := use_temp_dir o;
     client := client o; response := response o;
     _access_key := _access_key o;
     _secret_access_key := _secret_access_key o |}.

Definition set_user_file_prefix (v : string) (o : PollyTTS) : PollyTTS :=
  {| pdf_input_path := pdf_input_path o; str_input := str_input o;
     aws_client_str := aws_client_str o; user_file_prefix := v;
     output_filename := output_filename o; voice_id := voice_id o;
     output_format := output_format o; sample_rate := sample_rate o;
     language_code := language_code o; use_temp_dir := use_temp_dir o;
     client := client o; response := response o;
     _access_key := _access_key o;
     _secret_access_key := _secret_access_key o |}.

Definition set_output_filename (v : string) (o : PollyTTS) : PollyTTS :=
  {| pdf_input_path := pdf_input_path o; str_input := str_input o;
     aws_client_str := aws_client_str o;
     user_file_prefix := user_file_prefix o;
     output_filename := v; voice_id := voice_id o;
     output_format := output_format o; sample_rate := sample_rate o;
     language_code := language_code o; use_temp_dir := use_temp_dir o;
     client := client o; response := response o;
     _access_key := _access_key o;
     _secret_access_key := _secret_access_key o |}.

Definition set_voice_id (v : string) (o : PollyTTS) : PollyTTS :=
  {| pdf_input_path := pdf_input_path o; str_input := str_input o;
     aws_client_str := aws_client_str o;
     user_file_prefix := user_file_prefix o;
     output_filename := output_filename o; voice_id := v;
     output_format := output_format o; sample_rate := sample_rate o;
     language_code := language_code o; use_temp_dir := use_temp_dir o;
     client := client o; response := response o;
     _access_key := _access_key o;
     _secret_access_key := _secret_access_key o |}.

Definition set_output_format (v : string) (o : PollyTTS) : PollyTTS :=
  {| pdf_input_path := pdf_input_path o; str_input := str_input o;
     aws_client_str := aws_client_str o;
     user_file_prefix := user_file_prefix o;
     output_filename := output_filename o; voice_id := voice_id o;
     output_format := v; sample_rate := sample_rate o;
     language_code := language_code o; use_temp_dir := use_temp_dir o;
     client := client o; response := response o;
     _access_key := _access_key o;
     _secret_access_key := _secret_access_key o |}.

Definition set_sample_rate (v : string) (o : PollyTTS) : PollyTTS :=
  {| pdf_input_path := pdf_input_path o; str_input := str_input o;
     aws_client_str := aws_client_str o;
     user_file_prefix := user_file_prefix o;
     output_filename := output_filename o; voice_id := voice_id o;
     output_format := output_format o; sample_rate := v;
     language_code := language_code o; use_temp_dir := use_temp_dir o;
     client := client o; response := response o;
     _access_key := _access_key o;
     _secret_access_key := _secret_access_key o |}.

Definition set_language_code (v : string) (o : PollyTTS) : PollyTTS :=
  {| pdf_input_path := pdf_input_path o; str_input := str_input o;
     aws_client_str := aws_client_str o;
     user_file_prefix := user_file_prefix o;
     output_filename := output_filename o; voice_id := voice_id o;
     output_format := output_format o; sample_rate := sample_rate o;
     language_code := v; use_temp_dir := use_temp_dir o;
     client := client o; response := response o;
     _access_key := _access_key o;
     _secret_access_key := _secret_access_key o |}.

Definition set_client (v : option polly_client) (o : PollyTTS) : PollyTTS :=
  {| pdf_input_path := pdf_input_path o; str_input := str_input o;
     aws_client_str := aws_client_str o;
     user_file_prefix := user_file_prefix o;
     output_filename := output_filename o; voice_id := voice_id o;
     output_format := output_format o; sample_rate := sample_rate o;
     language_code := language_code o; use_temp_dir := use_temp_dir o;
     client := v; response := response o;
     _access_key := _access_key o;
     _secret_access_key := _secret_access_key o |}.

Definition set_response (v : option (gmap string (list byte)))
    (o : PollyTTS) : PollyTTS :=
  {| pdf_input_path := pdf_input_path o; str_input := str_input o;
     aws_client_str := aws_client_str o;
     user_file_prefix := user_file_prefix o;
     output_filename := output_filename o; voice_id := voice_id o;
     output_format := output_format o; sample_rate := sample_rate o;
     language_code := language_code o; use_temp_dir := use_temp_dir o;
     client := client o; response := v;
     _access_key := _access_key o;
     _secret_access_key := _secret_access_key o |}.

Definition with_self (f : PollyTTS → PollyTTS) (w : world) : world :=
  {| self := f (self w); stdout := stdout w; files := files w;
     draws := draws w; entropy_used := entropy_used w;
     requests := requests w; stream_closed := stream_closed w |}.

Definition with_stdout (f : list string → list string) (w : world) : world :=
  {| self := self w; stdout := f (stdout w); files := files w;
     draws := draws w; entropy_used := entropy_used w;
     requests := requests w; stream_closed := stream_closed w |}.

Definition with_files (f : gmap string (list byte) → gmap string (list byte))
    (w : world) : world :=
  {| self := self w; stdout := stdout w; files := f (files w);
     draws := draws w; entropy_used := entropy_used w;
     requests := requests w; stream_closed := stream_closed w |}.

Definition with_draws (f : nat → nat) (w : world) : world :=
  {| self := self w; stdout := stdout w; files := files w;
     draws := f (draws w); entropy_used := entropy_used w;
     requests := requests w; stream_closed := stream_closed w |}.

Definition with_entropy_used (f : nat → nat) (w : world) : world :=
  {| self := self w; stdout := stdout w; files := files w;
     draws := draws w; entropy_used := f (entropy_used w);
     requests := requests w; stream_closed := stream_closed w |}.

Definition with_requests
    (f : list synthesis_request → list synthesis_request) (w : world)
    : world :=
  {| self := self w; stdout := stdout w; files := files w;
     draws := draws w; entropy_used := entropy_used w;
     requests := f (requests w); stream_closed := stream_closed w |}.

Definition with_stream_closed (b : bool) (w : world) : world :=
  {| self := self w; stdout := stdout w; files := files w;
     draws := draws w; entropy_used := entropy_used w;
     requests := requests w; stream_closed := b |}.

(** The four attributes that the configuration setters own. *)
Definition config (o : PollyTTS) : string * string * string * string :=
  (voice_id o, output_format o, sample_rate o, language_code o).

(** ** The methods of [PollyTTS] *)

(** [print(line)] *)
Definition print (line : string) : M world unit :=
  modify (with_stdout (λ out, out ++ [line])).

(** [self.attribute = value] *)
Definition assign (f : PollyTTS → PollyTTS) : M world unit :=
  modify (with_self f).

(** The object as it is now. *)
Definition this : M world PollyTTS := λ w, (Return (self w), w).

(** The truth value of a string: it is not empty. *)
Definition truthy (s : string) : bool := bool_decide (s ≠ "").

(** [d[k]] *)
Definition dict_getitem (d : list (string * string)) (k : string)
    : M world string :=
  match dict_lookup d k with
  | Some v => mret v
  | None => raise (KeyError k)
  end.

(** [with closing(stream): body]: the stream is closed on every path. *)
Definition with_closing (body : M world unit) : M world unit :=
  try_stmt body [] pass (modify (with_stream_closed true)).

(** [path.endswith("/")] *)
Fixpoint ends_with_sep (path : string) : bool :=
  match path with
  | EmptyString => false
  | String c EmptyString => bool_decide (c = "/"%char)
  | String _ rest => ends_with_sep rest
  end.

(** [os.path.join(a, b)] of [posixpath]. *)
Definition os_path_join (a b : string) : string :=
  if String.prefix "/" b then b
  else if negb (truthy a) || ends_with_sep a then a +:+ b
  else a +:+ "/" +:+ b.

Section Methods.

Variable E : env.

(** [random.choice(seq)]: the next draw, reduced below [len(seq)]. *)
Definition random_choice (seq : list string) : M world string :=
  λ w, match seq !! (random_source E (draws w) mod length seq) with
       | Some x => (Return x, with_draws S w)
       | None =>
           (Raise (IndexError "Cannot choose from an empty sequence"), w)
       end.

(** [secrets.token_bytes(nbytes)] *)
Definition token_bytes (nbytes : nat) : M world (list byte) :=
  λ w, (Return (entropy E <$> seq (entropy_used w) nbytes),
        with_entropy_used (Nat.add nbytes) w).

(** [secrets.token_urlsafe(nbytes)] *)
Definition token_urlsafe (nbytes : nat) : M world string :=
  tok ← token_bytes nbytes;
  mret (secrets.token_of_bytes tok).

Definition _initialize_client : M world unit :=
  try_stmt
    (o ← this;
     c ← lift (boto3_client E "polly" (_access_key o)
                 (_secret_access_key o) "us-east-1");
     assign (set_client (Some c));;
     print "AWS-Polly client successfully initiated.")
    [ Except is_BotoCoreError_or_ClientError (λ e,
        sys_exit
          (ExitMessage ("Failed to initialize AWS Polly client: "
                        +:+ exn_str e))) ]
    pass
    pass.

Definition _random_text_input : M world unit :=
  random_sample_text ← random_choice (sample_sentences E);
  print ("Random text generated: " +:+ random_sample_text);;
  assign (set_aws_client_str random_sample_text).

(** The loop [for page in reader.pages: text_from_pdf +=
    page.extract_text() + "\n"]. *)
Fixpoint extract_pages (pages : list (outcome string))
    (text_from_pdf : string) : M world string :=
  match pages with
  | [] => mret text_from_pdf
  | page :: rest =>
      extracted ← lift page;
      extract_pages rest (text_from_pdf +:+ (extracted +:+ LF))
  end.

Definition _process_input_text : M world unit :=
  o ← this;
  if truthy (pdf_input_path o) then
    try_stmt
      (reader ← lift (PdfReader E (pdf_input_path o));
       text_from_pdf ← extract_pages reader "";
       assign (set_aws_client_str text_from_pdf);;
       print "PDF input file processed successfully.")
      [ Except is_FileNotFoundError (λ fnfe,
          print ("Path not valid. Going to string input. Error: "
                 +:+ exn_str fnfe);;
          if truthy (str_input o) then
            assign (set_aws_client_str (str_input o));;
            print "String input processed successfully."
          else
            print "No valid input string input.";;
            print "Using random text to tide you over...";;
            _random_text_input) ]
      pass
      pass
  else if truthy (str_input o) then
    print "Using string input.";;
    assign (set_aws_client_str (str_input o))
  else
    _random_text_input.

Definition _determine_output_filename : M world unit :=
  o ← this;
  (if negb (truthy (user_file_prefix o)) then
     random_filename ← token_urlsafe 6;
     print ("Generated random file name: " +:+ random_filename);;
     assign (set_user_file_prefix ("pdf_tts_" +:+ random_filename))
   else pass);;
  o ← this;
  assign (set_output_filename
            (user_file_prefix o +:+ "." +:+ output_format o)).

(** The keyword arguments that [_get_synthesized_speech] passes. *)
Definition synthesis_kwargs (o : PollyTTS) : synthesis_request :=
  {| VoiceId := voice_id o;
     OutputFormat := output_format o;
     Text := aws_client_str o;
     LanguageCode := language_code o;
     SampleRate := sample_rate o |}.

Definition _get_synthesized_speech : M world unit :=
  try_stmt
    (o ← this;
     match client o with
     | None =>
         raise (AttributeError
                  "'NoneType' object has no attribute 'synthesize_speech'")
     | Some polly =>
         let request := synthesis_kwargs o in
         modify (with_requests (λ sent, sent ++ [request]));;
         resp ← lift (synthesize_speech E polly request);
         assign (set_response (Some resp));;
         print "Speech successfully synthesized."
     end)
    [ Except is_BotoCoreError_or_ClientError (λ e,
        print ("`_get_synthesized_speech` error: " +:+ exn_str e);;
        sys_exit (ExitCode (-1))) ]
    pass
    pass.

Definition _write_audio_file : M world unit :=
  o ← this;
  match response o with
  | None => raise (TypeError "argument of type 'NoneType' is not iterable")
  | Some resp =>
      match resp !! "AudioStream" with
      | Some audio_stream =>
          with_closing
            (let output_path :=
               if use_temp_dir o
               then os_path_join (gettempdir E) (output_filename o)
               else output_filename o in
             try_stmt
               (lift (open_wb E output_path);;
                modify (with_files (insert output_path audio_stream));;
                print ("Audio file successfully written to "
                       +:+ output_path +:+ " "))
               [ Except is_IOError (λ e,
                   print ("`_write_audio_file` error: " +:+ exn_str e);;
                   sys_exit (ExitCode (-1))) ]
               pass
               pass)
      | None =>
          print "`_write_audio_file` error: 'AudioStream' not in response.";;
          sys_exit (ExitCode (-1))
      end
  end.

Definition random_voice_id : M world unit :=
  random_voice ← random_choice voice_ids;
  print "Retrieved random voice.";;
  assign (set_voice_id random_voice);;
  o ← this;
  print ("Using voice " +:+ voice_id o).

Definition random_eng_accent : M world unit :=
  random_language_code ← random_choice (dict_keys eng_language_code_dict);
  accent_name ← dict_getitem eng_language_code_dict random_language_code;
  print ("Using random accent: " +:+ accent_name +:+ ".");;
  assign (set_language_code random_language_code).

End Methods.

(** The [try] block of [choose_voice_id]. *)
Definition choose_voice_id_try (voice_id' : string) : M world unit :=
  if bool_decide (voice_id' ∈ voice_ids) then
    assign (set_voice_id voice_id')
  else
    print ("`select_voice_id` error: " +:+ voice_id' +:+ " not available.");;
    print "Using default voice 'Joanna' instead.".

Definition choose_voice_id (voice_id' : string) : M world unit :=
  try_stmt
    (choose_voice_id_try voice_id')
    [ Except is_TypeError (λ te,
        raise (TypeError ("Missing `voice_id`: " +:+ exn_str te
                          +:+ ". Defaulting to 'Joanna'.")));
      Except is_Exception (λ e,
        print ("`choose_voice_id` error: " +:+ exn_str e +:+ ".")) ]
    pass
    (o ← this;
     print ("Setting `voice_id` to: " +:+ voice_id o +:+ ".")).

(** The [try] block of [choose_output_format]: the test is on the
    attribute, not on the argument. *)
Definition choose_output_format_try (output_format' : string)
    : M world unit :=
  o ← this;
  if negb (bool_decide (output_format o ∈ output_formats)) then
    print ("You entered an invalid output format: "
           +:+ output_format o +:+ ".");;
    print "Going with 'mp3' instead.";;
    assign (set_output_format "mp3")
  else
    assign (set_output_format output_format').

Definition choose_output_format (output_format' : string) : M world unit :=
  try_stmt
    (choose_output_format_try output_format')
    [ Except is_TypeError (λ te,
        raise (TypeError ("Invalid `output_format`: " +:+ exn_str te
                          +:+ ". Defaulting to 'mp3'.")));
      Except is_Exception (λ e,
        print ("`choose_output_format` error: " +:+ exn_str e +:+ ".")) ]
    (assign (set_output_format "16000"))
    (o ← this;
     print ("Setting `output_format` to: " +:+ output_format o +:+ ".")).

(** The [try] block of [choose_sample_rate]. *)
Definition choose_sample_rate_try (sample_rate' : string) : M world unit :=
  o ← this;
  if negb (bool_decide (sample_rate o ∈ sample_rates)) then
    print ("You entered an invalid output sample rate: "
           +:+ sample_rate o +:+ ".");;
    print "Going with '16000' instead.";;
    assign (set_sample_rate "16000")
  else
    assign (set_sample_rate sample_rate').

Definition choose_sample_rate (sample_rate' : string) : M world unit :=
  try_stmt
    (choose_sample_rate_try sample_rate')
    [ Except is_TypeError (λ te,
        raise (TypeError ("Invalid `sample_rate`: " +:+ exn_str te
                          +:+ ". Defaulting to '16000'.")));
      Except is_Exception (λ e,
        print ("`choose_sample_rate` error: " +:+ exn_str e +:+ ".")) ]
    (assign (set_sample_rate "16000"))
    (o ← this;
     print ("Setting `sample_rate` to: " +:+ sample_rate o +:+ ".")).

(** The [try] block of [choose_eng_accent]. *)
Definition choose_eng_accent_try (eng_language_code : string)
    : M world unit :=
  if dict_contains eng_language_code_dict eng_language_code then
    assign (set_language_code eng_language_code)
  else
    print ("`choose_eng_accent` error: " +:+ eng_language_code
           +:+ " not available.");;
    print "Using default accent instead.".

Definition choose_eng_accent (eng_language_code : string) : M world unit :=
  try_stmt
    (choose_eng_accent_try eng_language_code)
    [ Except is_Exception (λ error,
        assign (set_language_code "en-US");;
        raise (TypeError ("`choose_eng_accent` error: " +:+ exn_str error
                          +:+ ". Defaulting to 'en-US'."))) ]
    pass
    (o ← this;
     accent ← dict_getitem eng_language_code_dict (language_code o);
     print ("Speech will be in " +:+ accent +:+ ".")).

Definition complete_tts (E : env) : M world unit :=
  _get_synthesized_speech E;;
  _write_audio_file E.

(** The attributes as the assignments at the head of [__init__] set
    them: the arguments, the placeholders and the default settings. *)
Definition initial_attributes (access_key secret_access_key : string)
    (pdf_input_path' str_input' : string) (use_temp_dir' : bool)
    (user_file_prefix' : string) : PollyTTS :=
  {| pdf_input_path := pdf_input_path';
     str_input := str_input';
     aws_client_str := "";
     user_file_prefix := user_file_prefix';
     output_filename := "";
     voice_id := "Joanna";
     output_format := "mp3";
     sample_rate := "16000";
     language_code := "en-US";
     use_temp_dir := use_temp_dir';
     client := None;
     response := None;
     _access_key := access_key;
     _secret_access_key := secret_access_key |}.

(** [PollyTTS.__init__]: the attributes get their initial values, then the
    client, the file name and the input text are set up. *)
Definition __init__ (E : env) (access_key secret_access_key : string)
    (pdf_input_path' str_input' : string) (use_temp_dir' : bool)
    (user_file_prefix' : string) : M world unit :=
  assign (λ _, initial_attributes access_key secret_access_key
                 pdf_input_path' str_input' use_temp_dir' user_file_prefix');;
  _initialize_client E;;
  _determine_output_filename E;;
  _process_input_text E.

(** ** Runs *)

(** A call of one of the four configuration setters. *)
Inductive setter_call :=
| ChooseVoiceId (voice_id' : string)
| ChooseOutputFormat (output_format' : string)
| ChooseSampleRate (sample_rate' : string)
| ChooseEngAccent (eng_language_code : string).

Definition call (c : setter_call) : M world unit :=
  match c with
  | ChooseVoiceId v => choose_voice_id v
  | ChooseOutputFormat f => choose_output_format f
  | ChooseSampleRate r => choose_sample_rate r
  | ChooseEngAccent a => choose_eng_accent a
  end.

Fixpoint calls (cs : list setter_call) : M world unit :=
  match cs with
  | [] => pass
  | c :: rest => call c;; calls rest
  end.

(** The object before [__init__] has run, in an untouched world. *)
Definition blank : PollyTTS :=
  {| pdf_input_path := ""; str_input := ""; aws_client_str := "";
     user_file_prefix := ""; output_filename := ""; voice_id := "";
     output_format := ""; sample_rate := ""; language_code := "";
     use_temp_dir := false; client := None; response := None;
     _access_key := ""; _secret_access_key := "" |}.

Definition boot : world :=
  {| self := blank; stdout := []; files := ∅; draws := 0;
     entropy_used := 0; requests := []; stream_closed := false |}.

(** A run of the program: construction, the caller's setter calls,
    [complete_tts]. *)
Definition run (E : env) (access_key secret_access_key : string)
    (pdf_input_path' str_input' : string) (use_temp_dir' : bool)
    (user_file_prefix' : string) (cs : list setter_call) : M world unit :=
  __init__ E access_key secret_access_key pdf_input_path' str_input'
    use_temp_dir' user_file_prefix';;
  calls cs;;
  complete_tts E.

(** A request is well formed when each field is in its allow-list. *)
Definition request_valid (r : synthesis_request) : Prop :=
  VoiceId r ∈ voice_ids ∧ OutputFormat r ∈ output_formats
  ∧ SampleRate r ∈ sample_rates
  ∧ LanguageCode r ∈ dict_keys eng_language_code_dict.

(** ** A sample environment *)

Module Sample.

Definition audio : list byte := [Byte.x49; Byte.x44; Byte.x33].

(** One document of two pages, one path that does not exist, one file
    that is not a PDF; the service answers every request with the same
    audio stream. *)
Definition E : env :=
  {| sample_sentences := ["Hope is the thing with feathers."];
     boto3_client := λ _ key secret region,
       Return (PollyClient key secret region);
     PdfReader := λ path,
       if bool_decide (path = "poem.pdf")
       then Return [Return "Hope"; Return "is"]
       else if bool_decide (path = "broken.pdf")
       then Raise (PdfReadError "EOF marker not found")
       else if bool_decide (path = "empty.pdf")
       then Return []
       else Raise (FileNotFoundError "No such file or directory");
     synthesize_speech := λ _ _, Return {[ "AudioStream" := audio ]};
     random_source := λ n, n;
     entropy := λ n, match n with 0 => Byte.xfb | _ => Byte.xff end;
     gettempdir := "/tmp";
     open_wb := λ _, Return tt |}.

(** The same, with a service whose answer has no audio stream. *)
Definition E_no_stream : env :=
  {| sample_sentences := sample_sentences E;
     boto3_client := boto3_client E;
     PdfReader := PdfReader E;
     synthesize_speech := λ _ _, Return {[ "ContentType" := [] ]};
     random_source := random_source E;
     entropy := entropy E;
     gettempdir := gettempdir E;
     open_wb := open_wb E |}.

End Sample.

(** ** The vocabulary of the statements *)

(** A property of the state that a computation keeps, whether it returns
    or raises. *)
Definition preserves {A} (I : world → Prop) (c : M world A) : Prop :=
  ∀ w, I w → I (c w).2.

(** Properties of the four configuration attributes alone. *)
Definition on_config (P : string * string * string * string → Prop)
    (w : world) : Prop :=
  P (config (self w)).

(** The configuration that [__init__] installs. *)
Definition default_config : string * string * string * string :=
  ("Joanna", "mp3", "16000", "en-US").

(** The value a setter call passes is one its allow-list holds. *)
Definition valid_argument (c : setter_call) : Prop :=
  match c with
  | ChooseVoiceId v => v ∈ voice_ids
  | ChooseOutputFormat f => f ∈ output_formats
  | ChooseSampleRate r => r ∈ sample_rates
  | ChooseEngAccent a => a ∈ dict_keys eng_language_code_dict
  end.

(** The three attributes other than the format are in their allow-lists. *)
Definition other_fields_valid (c : string * string * string * string)
    : Prop :=
  c.1.1.1 ∈ voice_ids ∧ c.1.2 ∈ sample_rates
  ∧ c.2 ∈ dict_keys eng_language_code_dict.

(** The text of the pages in order, each followed by a line feed. *)
Definition each_page_terminated (texts : list string) : string :=
  foldr (λ t rest, t +:+ LF +:+ rest) "" texts.

(** The first exception that reading the pages raises. *)
Fixpoint first_raise (pages : list (outcome string)) : option exn :=
  match pages with
  | [] => None
  | Return _ :: rest => first_raise rest
  | Raise e :: _ => Some e
  end.

(** The exception, if any, with which the extraction of a document fails:
    either [PdfReader] raises or one of the pages does. *)
Definition extraction_failure (r : outcome (list (outcome string)))
    : option exn :=
  match r with
  | Raise e => Some e
  | Return pages => first_raise pages
  end.

(** The inputs for which a text is resolved: no PDF path, a path that is
    not found, or a document of at least one page that reads well. *)
Inductive resolvable (E : env) (o : PollyTTS) : Prop :=
| no_pdf : pdf_input_path o = "" → resolvable E o
| pdf_missing (msg : string) :
    PdfReader E (pdf_input_path o) = Raise (FileNotFoundError msg) →
    resolvable E o
| pdf_pages (texts : list string) :
    texts ≠ [] →
    PdfReader E (pdf_input_path o) = Return (Return <$> texts) →
    resolvable E o.

(** The object as the head of [__init__] leaves it, before the text is
    resolved. *)
Definition constructed (pdf_input_path' str_input' : string) : world :=
  with_self
    (λ _, initial_attributes "key" "secret" pdf_input_path' str_input'
            false "greet")
    boot.

(** The world in which the scenarios below call the setters: the object
    built from the literal string ["Hello world"] and the prefix
    ["greet"]. *)
Definition greet : world :=
  (__init__ Sample.E "key" "secret" "" "Hello world" false "greet" boot).2.

(** Everything a run holds apart from the four configuration attributes
    and the lines printed. *)
Definition frame (w : world) :=
  (pdf_input_path (self w), str_input (self w), aws_client_str (self w),
   user_file_prefix (self w), output_filename (self w),
   use_temp_dir (self w), client (self w), response (self w),
   _access_key (self w), _secret_access_key (self w),
   files w, draws w, entropy_used w, requests w, stream_closed w).

(** The path [_write_audio_file] opens. *)
Definition output_path (E : env) (o : PollyTTS) : string :=
  if use_temp_dir o then os_path_join (gettempdir E) (output_filename o)
  else output_filename o.

(** The accent is a key of the accent table. *)
Definition accent_valid (w : world) : Prop :=
  language_code (self w) ∈ dict_keys eng_language_code_dict.

(** The calls that go to [choose_output_format], to [choose_sample_rate]. *)
Definition sets_format (c : setter_call) : bool :=
  match c with ChooseOutputFormat _ => true | _ => false end.

Definition sets_rate (c : setter_call) : bool :=
  match c with ChooseSampleRate _ => true | _ => false end.

(** ** Environments in which a collaborator fails *)

Module Faulty.

(** The credentials are refused. *)
Definition E_no_credentials : env :=
  {| sample_sentences := sample_sentences Sample.E;
     boto3_client := λ _ _ _ _, Raise (ClientError "InvalidClientTokenId");
     PdfReader := PdfReader Sample.E;
     synthesize_speech := synthesize_speech Sample.E;
     random_source := random_source Sample.E;
     entropy := entropy Sample.E;
     gettempdir := gettempdir Sample.E;
     open_wb := open_wb Sample.E |}.

(** The service refuses every request. *)
Definition E_service_down : env :=
  {| sample_sentences := sample_sentences Sample.E;
     boto3_client := boto3_client Sample.E;
     PdfReader := PdfReader Sample.E;
     synthesize_speech := λ _ _, Raise (ClientError "ServiceFailure");
     random_source := random_source Sample.E;
     entropy := entropy Sample.E;
     gettempdir := gettempdir Sample.E;
     open_wb := open_wb Sample.E |}.

(** No file can be opened for writing. *)
Definition E_read_only : env :=
  {| sample_sentences := sample_sentences Sample.E;
     boto3_client := boto3_client Sample.E;
     PdfReader := PdfReader Sample.E;
     synthesize_speech := synthesize_speech Sample.E;
     random_source := random_source Sample.E;
     entropy := entropy Sample.E;
     gettempdir := gettempdir Sample.E;
     open_wb := λ _, Raise (PermissionError "Permission denied") |}.

(** The pool of sample sentences is empty. *)
Definition E_empty_pool : env :=
  {| sample_sentences := [];
     boto3_client := boto3_client Sample.E;
     PdfReader := PdfReader Sample.E;
     synthesize_speech := synthesize_speech Sample.E;
     random_source := random_source Sample.E;
     entropy := entropy Sample.E;
     gettempdir := gettempdir Sample.E;
     open_wb := open_wb Sample.E |}.

End Faulty.

(** ** Executing the monad in proofs *)

#[global] Arguments dict_lookup : simpl never.
#[global] Arguments dict_contains : simpl never.

Ltac exec :=
  unfold try_stmt, with_closing, mbind, M_bind, bind, mret, M_ret, ret, pass,
    print, assign, modify, this, raise, sys_exit, lift, get;
  cbn.

Lemma dict_lookup_is_Some (d : list (string * string)) (k : string) :
  k ∈ dict_keys d → is_Some (dict_lookup d k).
Proof.
  unfold dict_keys, dict_lookup.
  induction d as [|[k' v] d IH]; intros Hk.
  - inversion Hk.
  - cbn. case_bool_decide as Hkk; cbn in *.
    + eauto.
    + apply IH. apply elem_of_cons in Hk as [->|Hk]; [done|exact Hk].
Qed.

Section Preserves.

Context (I : world → Prop).

Lemma preserves_ret {A} (a : A) : preserves I (mret a).
Proof. intros w Hw. exact Hw. Qed.

Lemma preserves_pass : preserves I pass.
Proof. intros w Hw. exact Hw. Qed.

Lemma preserves_this : preserves I this.
Proof. intros w Hw. exact Hw. Qed.

Lemma preserves_raise {A} (e : exn) : preserves I (raise (A := A) e).
Proof. intros w Hw. exact Hw. Qed.

Lemma preserves_sys_exit {A} (st : exit_status) :
  preserves I (sys_exit (A := A) st).
Proof. intros w Hw. exact Hw. Qed.

Lemma preserves_lift {A} (o : outcome A) : preserves I (lift o).
Proof. intros w Hw. exact Hw. Qed.

Lemma preserves_bind {A B} (c : M world A) (k : A → M world B) :
  preserves I c → (∀ a, preserves I (k a)) → preserves I (c ≫= k).
Proof.
  intros Hc Hk w Hw. unfold mbind, M_bind, bind.
  specialize (Hc w Hw). destruct (c w) as [[a|e] w1]; cbn in *.
  - apply Hk, Hc.
  - exact Hc.
Qed.

Lemma preserves_try (body : M world unit)
    (excepts : list (except_clause world)) (orelse finalbody : M world unit) :
  preserves I body →
  Forall (λ c, ∀ e, preserves I (handler c e)) excepts →
  preserves I orelse →
  preserves I finalbody →
  preserves I (try_stmt body excepts orelse finalbody).
Proof.
  intros Hb Hx Ho Hf w Hw. unfold try_stmt.
  specialize (Hb w Hw). destruct (body w) as [[[]|e] w1]; cbn in Hb.
  - specialize (Ho w1 Hb). destruct (orelse w1) as [r2 w2]; cbn in Ho.
    specialize (Hf w2 Ho). destruct (finalbody w2) as [[[]|e3] w3]; exact Hf.
  - destruct (List.find (λ c, catches c e) excepts) as [c|] eqn:Hfind.
    + apply find_some in Hfind as [Hin _].
      rewrite Forall_forall in Hx. apply list_elem_of_In in Hin.
      specialize (Hx c Hin e w1 Hb).
      destruct (handler c e w1) as [r2 w2]; cbn in Hx.
      specialize (Hf w2 Hx). destruct (finalbody w2) as [[[]|e3] w3]; exact Hf.
    + specialize (Hf w1 Hb). destruct (finalbody w1) as [[[]|e3] w3]; exact Hf.
Qed.

End Preserves.

Section PreservesConfig.

Context (P : string * string * string * string → Prop).

Lemma config_print (line : string) : preserves (on_config P) (print line).
Proof. intros w Hw. exact Hw. Qed.

Lemma config_modify (f : world → world) :
  (∀ w, config (self (f w)) = config (self w)) →
  preserves (on_config P) (modify f).
Proof. intros Hf w Hw. unfold on_config, modify. cbn. rewrite Hf. exact Hw. Qed.

Lemma config_assign (f : PollyTTS → PollyTTS) :
  (∀ o, config (f o) = config o) → preserves (on_config P) (assign f).
Proof. intros Hf. apply config_modify. intros w. cbn. apply Hf. Qed.

Lemma config_random_choice (E : env) (seq : list string) :
  preserves (on_config P) (random_choice E seq).
Proof.
  intros w Hw. unfold random_choice.
  destruct (seq !! _); exact Hw.
Qed.

Lemma config_token_urlsafe (E : env) (n : nat) :
  preserves (on_config P) (token_urlsafe E n).
Proof. intros w Hw. exact Hw. Qed.

Lemma config_extract_pages (pages : list (outcome string)) (acc : string) :
  preserves (on_config P) (extract_pages pages acc).
Proof.
  revert acc. induction pages as [|page rest IH]; intros acc.
  - apply preserves_ret.
  - cbn [extract_pages]. apply preserves_bind; [apply preserves_lift|].
    intros t. apply IH.
Qed.

End PreservesConfig.

Create HintDb preserves.

#[local] Hint Resolve preserves_ret preserves_pass preserves_this
  preserves_raise preserves_sys_exit preserves_lift config_print
  config_random_choice config_token_urlsafe config_extract_pages
  : preserves.

Ltac preserves_step :=
  first
    [ apply preserves_bind; [|intros ?]
    | apply preserves_try; [| repeat constructor; intros ? | |]
    | apply config_assign; intros ?; reflexivity
    | apply config_modify; intros ?; reflexivity
    | solve [auto with preserves] ].

Ltac preserves_config := repeat (preserves_step; cbn [handler]).

Section Construction.

Variable E : env.
Context (P : string * string * string * string → Prop).

Lemma config__initialize_client :
  preserves (on_config P) (_initialize_client E).
Proof. unfold _initialize_client. preserves_config. Qed.

Lemma config__random_text_input :
  preserves (on_config P) (_random_text_input E).
Proof. unfold _random_text_input. preserves_config. Qed.

Lemma config__process_input_text :
  preserves (on_config P) (_process_input_text E).
Proof.
  pose proof config__random_text_input.
  unfold _process_input_text.
  preserves_step; [auto with preserves|].
  repeat case_match; preserves_config; auto.
Qed.

Lemma config__determine_output_filename :
  preserves (on_config P) (_determine_output_filename E).
Proof.
  unfold _determine_output_filename.
  preserves_step; [auto with preserves|].
  preserves_step; [case_match|]; preserves_config.
Qed.

End Construction.

Lemma config___init__ (E : env) (access_key secret_access_key : string)
    (pdf_input_path' str_input' : string) (use_temp_dir' : bool)
    (user_file_prefix' : string) (w : world) :
  config (self (__init__ E access_key secret_access_key pdf_input_path'
                  str_input' use_temp_dir' user_file_prefix' w).2)
  = default_config.
Proof.
  unfold __init__.
  match goal with
  | |- context [mbind (λ _ : (), ?k) (assign ?f)] =>
      assert (Hk : preserves (on_config (λ c, c = default_config)) k)
  end.
  { preserves_step; [apply config__initialize_client|].
    preserves_step; [apply config__determine_output_filename|].
    apply config__process_input_text. }
  unfold mbind at 1, M_bind at 1, bind at 1, assign, modify. cbn [fst snd].
  apply Hk. reflexivity.
Qed.

(** ** The configuration setters *)

Section Setters.

Lemma choose_voice_id_returns (id : string) (w : world) :
  (choose_voice_id id w).1 = Return tt.
Proof.
  unfold choose_voice_id, choose_voice_id_try. exec.
  case_bool_decide; reflexivity.
Qed.

Lemma choose_voice_id_known (id : string) (w : world) :
  id ∈ voice_ids → config (self (choose_voice_id id w).2)
    = (id, output_format (self w), sample_rate (self w),
       language_code (self w)).
Proof.
  intros Hid. unfold choose_voice_id, choose_voice_id_try. exec.
  rewrite bool_decide_eq_true_2 by exact Hid. reflexivity.
Qed.

Lemma choose_voice_id_unknown (id : string) (w : world) :
  id ∉ voice_ids → config (self (choose_voice_id id w).2) = config (self w).
Proof.
  intros Hid. unfold choose_voice_id, choose_voice_id_try. exec.
  rewrite bool_decide_eq_false_2 by exact Hid. reflexivity.
Qed.

(** The [try] block of the format setter cannot raise, so its [else]
    clause always runs. *)
Lemma choose_output_format_try_returns (fmt : string) (w : world) :
  (choose_output_format_try fmt w).1 = Return tt.
Proof.
  unfold choose_output_format_try. exec. case_bool_decide; reflexivity.
Qed.

Lemma choose_sample_rate_try_returns (rate : string) (w : world) :
  (choose_sample_rate_try rate w).1 = Return tt.
Proof.
  unfold choose_sample_rate_try. exec. case_bool_decide; reflexivity.
Qed.

Lemma choose_output_format_config (fmt : string) (w : world) :
  (choose_output_format fmt w).1 = Return tt
  ∧ config (self (choose_output_format fmt w).2)
    = (voice_id (self w), "16000", sample_rate (self w),
       language_code (self w)).
Proof.
  unfold choose_output_format, choose_output_format_try. exec.
  case_bool_decide; split; reflexivity.
Qed.

Lemma choose_sample_rate_config (rate : string) (w : world) :
  (choose_sample_rate rate w).1 = Return tt
  ∧ config (self (choose_sample_rate rate w).2)
    = (voice_id (self w), output_format (self w), "16000",
       language_code (self w)).
Proof.
  unfold choose_sample_rate, choose_sample_rate_try. exec.
  case_bool_decide; split; reflexivity.
Qed.

Lemma choose_eng_accent_known (code : string) (w : world) :
  code ∈ dict_keys eng_language_code_dict →
  (choose_eng_accent code w).1 = Return tt
  ∧ config (self (choose_eng_accent code w).2)
    = (voice_id (self w), output_format (self w), sample_rate (self w),
       code).
Proof.
  intros Hcode.
  destruct (dict_lookup_is_Some _ _ Hcode) as [accent Haccent].
  unfold choose_eng_accent, choose_eng_accent_try, dict_contains,
    dict_getitem.
  rewrite bool_decide_eq_true_2 by exact Hcode. exec.
  rewrite Haccent. split; reflexivity.
Qed.

Lemma choose_eng_accent_unknown (code : string) (w : world) :
  code ∉ dict_keys eng_language_code_dict →
  config (self (choose_eng_accent code w).2) = config (self w).
Proof.
  intros Hcode.
  unfold choose_eng_accent, choose_eng_accent_try, dict_contains,
    dict_getitem.
  rewrite bool_decide_eq_false_2 by exact Hcode. exec.
  destruct (dict_lookup eng_language_code_dict (language_code (self w)));
    reflexivity.
Qed.

End Setters.

Lemma seq_returns {A B} (c : M world A) (k : A → M world B) (a : A)
    (w : world) :
  (c w).1 = Return a → (c ≫= k) w = k a (c w).2.
Proof.
  intros Hc. unfold mbind, M_bind, bind.
  destruct (c w) as [r w1]. cbn in Hc. subst r. reflexivity.
Qed.

Lemma call_valid (c : setter_call) (w : world) :
  valid_argument c →
  (call c w).1 = Return tt
  ∧ config (self (call c w).2)
    = match c with
      | ChooseVoiceId v =>
          (v, output_format (self w), sample_rate (self w),
           language_code (self w))
      | ChooseOutputFormat _ =>
          (voice_id (self w), "16000", sample_rate (self w),
           language_code (self w))
      | ChooseSampleRate _ =>
          (voice_id (self w), output_format (self w), "16000",
           language_code (self w))
      | ChooseEngAccent a =>
          (voice_id (self w), output_format (self w), sample_rate (self w),
           a)
      end.
Proof.
  destruct c as [v|f|r|a]; cbn [valid_argument call]; intros Hc.
  - split; [apply choose_voice_id_returns|by apply choose_voice_id_known].
  - apply choose_output_format_config.
  - apply choose_sample_rate_config.
  - by apply choose_eng_accent_known.
Qed.

(** ** The claims about the setters *)

(** C7: for every identifier in the voice registry, [choose_voice_id] makes
    the effective voice equal to that identifier; for every identifier not
    in the registry the effective voice stays what it was; a freshly
    constructed object has the voice ["Joanna"]. *)
Theorem choose_voice_id_effective (id : string) (w : world) :
  (id ∈ voice_ids → voice_id (self (choose_voice_id id w).2) = id)
  ∧ (id ∉ voice_ids →
     voice_id (self (choose_voice_id id w).2) = voice_id (self w))
  ∧ (∀ E access_key secret_access_key path text temp pre w0,
       voice_id (self (__init__ E access_key secret_access_key path text
                         temp pre w0).2) = "Joanna").
Proof.
  split; [|split].
  - intros Hid. pose proof (choose_voice_id_known id w Hid) as H.
    exact (f_equal (λ c, c.1.1.1) H).
  - intros Hid. pose proof (choose_voice_id_unknown id w Hid) as H.
    exact (f_equal (λ c, c.1.1.1) H).
  - intros E access_key secret_access_key path text temp pre w0.
    exact (f_equal (λ c, c.1.1.1)
             (config___init__ E access_key secret_access_key path text temp
                pre w0)).
Qed.

Lemma choose_voice_id_effective_witness :
  voice_id (self (choose_voice_id "Amy" greet).2) = "Amy"
  ∧ voice_id (self (choose_voice_id "Siri" greet).2) = voice_id (self greet).
Proof.
  destruct (choose_voice_id_effective "Amy" greet) as (Hin & _ & _).
  destruct (choose_voice_id_effective "Siri" greet) as (_ & Hout & _).
  split.
  - apply Hin. apply (bool_decide_eq_true_1 _). reflexivity.
  - apply Hout. apply (bool_decide_eq_false_1 _). reflexivity.
Defined.

(** C3: for every argument and every prior state, the [try] block of
    [choose_output_format] (of [choose_sample_rate]) completes without
    raising, the [else] clause of the statement then runs, and the call
    leaves the attribute [output_format] (resp. [sample_rate]) equal to
    ["16000"]. *)
Theorem format_and_rate_end_at_16000 (arg : string) (w : world) :
  ((choose_output_format_try arg w).1 = Return tt
   ∧ (choose_output_format arg w).1 = Return tt
   ∧ output_format (self (choose_output_format arg w).2) = "16000")
  ∧ ((choose_sample_rate_try arg w).1 = Return tt
     ∧ (choose_sample_rate arg w).1 = Return tt
     ∧ sample_rate (self (choose_sample_rate arg w).2) = "16000").
Proof.
  destruct (choose_output_format_config arg w) as [Hf1 Hf2].
  destruct (choose_sample_rate_config arg w) as [Hr1 Hr2].
  repeat split.
  - apply choose_output_format_try_returns.
  - exact Hf1.
  - exact (f_equal (λ c, c.1.1.2) Hf2).
  - apply choose_sample_rate_try_returns.
  - exact Hr1.
  - exact (f_equal (λ c, c.1.2) Hr2).
Qed.

(** C2, at a failing input: on a freshly constructed object, whose format
    ["mp3"] and rate ["16000"] are valid, the [try] block of
    [choose_output_format "ogg_vorbis"] assigns the argument, but the call
    as a whole leaves ["16000"] in [output_format]; likewise
    [choose_sample_rate "8000"] leaves ["16000"] in [sample_rate]. *)
Theorem format_setter_discards_argument :
  output_format (self greet) = "mp3"
  ∧ sample_rate (self greet) = "16000"
  ∧ output_format (self (choose_output_format_try "ogg_vorbis" greet).2)
    = "ogg_vorbis"
  ∧ output_format (self (choose_output_format "ogg_vorbis" greet).2)
    = "16000"
  ∧ sample_rate (self (choose_sample_rate_try "8000" greet).2) = "8000"
  ∧ sample_rate (self (choose_sample_rate "8000" greet).2) = "16000".
Proof. vm_compute. repeat split. Qed.

(** C10: every configuration setter is idempotent: called with a value of
    its allow-list, twice in a row, it returns both times and leaves the
    configuration (voice, format, rate, accent) that one call leaves. *)
Theorem setters_idempotent (c : setter_call) (w : world) :
  valid_argument c →
  (call c w).1 = Return tt
  ∧ ((call c;; call c) w).1 = Return tt
  ∧ config (self ((call c;; call c) w).2) = config (self (call c w).2).
Proof.
  intros Hc.
  destruct (call_valid c w Hc) as [Hret Hcfg].
  destruct (call_valid c (call c w).2 Hc) as [Hret' Hcfg'].
  rewrite (seq_returns _ _ tt w Hret).
  split; [exact Hret|split; [exact Hret'|]].
  rewrite Hcfg'. rewrite Hcfg.
  pose proof (f_equal (λ x, x.1.1.1) Hcfg) as Hv.
  pose proof (f_equal (λ x, x.1.1.2) Hcfg) as Hf.
  pose proof (f_equal (λ x, x.1.2) Hcfg) as Hr.
  pose proof (f_equal (λ x, x.2) Hcfg) as Hl.
  unfold config in Hv, Hf, Hr, Hl. cbn in Hv, Hf, Hr, Hl.
  destruct c; cbn in *; congruence.
Qed.

Lemma setters_idempotent_witness :
  config (self ((choose_eng_accent "en-GB";; choose_eng_accent "en-GB")
                  greet).2)
  = config (self (choose_eng_accent "en-GB" greet).2).
Proof.
  refine (proj2 (proj2 (setters_idempotent (ChooseEngAccent "en-GB") greet _))).
  apply (bool_decide_eq_true_1 _). reflexivity.
Defined.

(** ** The request that leaves the object *)

(** The voice, the rate and the accent stay in their allow-lists under
    every setter call, whatever its argument. *)
Lemma call_keeps_other_fields (c : setter_call) :
  preserves (on_config other_fields_valid) (call c).
Proof.
  intros w (Hvoice & Hrate & Haccent). unfold on_config, other_fields_valid.
  destruct c as [v|f|r|a]; cbn [call].
  - destruct (decide (v ∈ voice_ids)) as [Hv|Hv].
    + rewrite (choose_voice_id_known v w Hv). done.
    + rewrite (choose_voice_id_unknown v w Hv). done.
  - rewrite (proj2 (choose_output_format_config f w)). done.
  - rewrite (proj2 (choose_sample_rate_config r w)). cbn.
    split; [done|]. split; [|done].
    apply (bool_decide_eq_true_1 _). reflexivity.
  - destruct (decide (a ∈ dict_keys eng_language_code_dict)) as [Ha|Ha].
    + rewrite (proj2 (choose_eng_accent_known a w Ha)). done.
    + rewrite (choose_eng_accent_unknown a w Ha). done.
Qed.

Lemma calls_keep_other_fields (cs : list setter_call) :
  preserves (on_config other_fields_valid) (calls cs).
Proof.
  induction cs as [|c cs IH]; cbn [calls].
  - apply preserves_pass.
  - apply preserves_bind; [apply call_keeps_other_fields|intros _; exact IH].
Qed.

(** After construction and any sequence of setter calls, the voice, the
    rate and the accent that [complete_tts] will submit are valid. *)
Lemma other_fields_valid_at_synthesis (E : env)
    (access_key secret_access_key path text : string) (temp : bool)
    (pre : string) (cs : list setter_call) (w : world) :
  on_config other_fields_valid
    ((__init__ E access_key secret_access_key path text temp pre;;
      calls cs) w).2.
Proof.
  pose proof (config___init__ E access_key secret_access_key path text temp
                pre w) as Hinit.
  unfold mbind, M_bind, bind.
  destruct (__init__ E access_key secret_access_key path text temp pre w)
    as [[[]|e] w1]; cbn [snd] in *.
  - apply calls_keep_other_fields. unfold on_config. rewrite Hinit.
    repeat split; apply (bool_decide_eq_true_1 _); reflexivity.
  - unfold on_config. rewrite Hinit.
    repeat split; apply (bool_decide_eq_true_1 _); reflexivity.
Qed.

(** C1, at a failing input: a run that calls [choose_output_format "mp3"]
    once submits a request whose [OutputFormat] is ["16000"], which is not
    an output format, so the request is not well formed. *)
Theorem format_setter_breaks_request :
  let r := run Sample.E "key" "secret" "" "Hello world" false "greet"
             [ChooseOutputFormat "mp3"] boot in
  let sent :=
    {| VoiceId := "Joanna"; OutputFormat := "16000"; Text := "Hello world";
       LanguageCode := "en-US"; SampleRate := "16000" |} in
  r.1 = Return tt
  ∧ requests r.2 = [sent]
  ∧ ("16000" ∉ output_formats)
  ∧ ¬ request_valid sent.
Proof.
  assert (Hnot : "16000" ∉ output_formats).
  { apply (bool_decide_eq_false_1 _). reflexivity. }
  cbv zeta.
  split; [vm_compute; reflexivity|].
  split; [vm_compute; reflexivity|].
  split; [exact Hnot|].
  intros (_ & Hfmt & _). exact (Hnot Hfmt).
Qed.

(** ** Input resolution *)

Lemma append_assoc (s t u : string) : (s +:+ t) +:+ u = s +:+ (t +:+ u).
Proof.
  induction s as [|c s IH]; [reflexivity|].
  change (String c ((s +:+ t) +:+ u) = String c (s +:+ (t +:+ u))).
  by rewrite IH.
Qed.

Lemma append_nil_r (s : string) : s +:+ "" = s.
Proof.
  induction s as [|c s IH]; [reflexivity|].
  change (String c (s +:+ "") = String c s). by rewrite IH.
Qed.

Lemma append_LF_nonempty (s t : string) : s +:+ LF +:+ t ≠ "".
Proof. destruct s; discriminate. Qed.

Lemma extract_pages_texts (texts : list string) (acc : string) (w : world) :
  extract_pages (Return <$> texts) acc w
  = (Return (acc +:+ each_page_terminated texts), w).
Proof.
  revert acc. induction texts as [|t texts IH]; intros acc; cbn.
  - by rewrite append_nil_r.
  - unfold mbind, M_bind, bind, lift. rewrite IH.
    by rewrite !append_assoc.
Qed.

Lemma extract_pages_raises (pages : list (outcome string)) (acc : string)
    (e : exn) (w : world) :
  first_raise pages = Some e → extract_pages pages acc w = (Raise e, w).
Proof.
  revert acc. induction pages as [|[t|e'] pages IH]; intros acc Hfirst;
    cbn in *.
  - discriminate.
  - unfold mbind, M_bind, bind, lift. by apply IH.
  - by inversion Hfirst.
Qed.

Lemma random_choice_member (E : env) (seq : list string) (w : world) :
  seq ≠ [] →
  ∃ x, x ∈ seq ∧ random_choice E seq w = (Return x, with_draws S w).
Proof.
  intros Hseq. unfold random_choice.
  assert (Hlt : random_source E (draws w) mod length seq < length seq).
  { apply Nat.mod_upper_bound. destruct seq; [done|discriminate]. }
  apply lookup_lt_is_Some_2 in Hlt as [x Hx]. rewrite Hx.
  exists x. split; [|reflexivity]. by eapply list_elem_of_lookup_2.
Qed.

Lemma _random_text_input_member (E : env) (w : world) :
  sample_sentences E ≠ [] →
  (_random_text_input E w).1 = Return tt
  ∧ aws_client_str (self (_random_text_input E w).2) ∈ sample_sentences E.
Proof.
  intros Hpool. unfold _random_text_input.
  destruct (random_choice_member E _ w Hpool) as (x & Hx & Hchoice).
  unfold mbind, M_bind, bind. rewrite Hchoice. exec. by split.
Qed.

(** What [_process_input_text] does with a document that reads well. *)
Lemma _process_input_text_pages (E : env) (w : world) (texts : list string) :
  truthy (pdf_input_path (self w)) = true →
  PdfReader E (pdf_input_path (self w)) = Return (Return <$> texts) →
  _process_input_text E w =
    (Return tt,
     with_stdout (λ out, out ++ ["PDF input file processed successfully."])
       (with_self (set_aws_client_str (each_page_terminated texts)) w)).
Proof.
  intros Hpath Hread. unfold _process_input_text.
  unfold mbind at 1, M_bind at 1, bind at 1, this. rewrite Hpath.
  unfold try_stmt.
  unfold mbind at 1, M_bind at 1, bind at 1, lift at 1. rewrite Hread.
  unfold mbind at 1, M_bind at 1, bind at 1. rewrite extract_pages_texts.
  reflexivity.
Qed.

(** What [_process_input_text] does when the extraction fails. *)
Lemma _process_input_text_failure (E : env) (w : world) (e : exn) :
  truthy (pdf_input_path (self w)) = true →
  extraction_failure (PdfReader E (pdf_input_path (self w))) = Some e →
  _process_input_text E w =
    if is_FileNotFoundError e then
      (print ("Path not valid. Going to string input. Error: "
              +:+ exn_str e);;
       if truthy (str_input (self w)) then
         assign (set_aws_client_str (str_input (self w)));;
         print "String input processed successfully."
       else
         print "No valid input string input.";;
         print "Using random text to tide you over...";;
         _random_text_input E) w
    else (Raise e, w).
Proof.
  intros Hpath Hfail. unfold _process_input_text.
  unfold mbind at 1, M_bind at 1, bind at 1, this. rewrite Hpath.
  unfold try_stmt.
  assert (Hbody :
    (reader ← lift (PdfReader E (pdf_input_path (self w)));
     text_from_pdf ← extract_pages reader "";
     assign (set_aws_client_str text_from_pdf);;
     print "PDF input file processed successfully.") w = (Raise e, w)).
  { unfold mbind at 1, M_bind at 1, bind at 1, lift at 1.
    destruct (PdfReader E (pdf_input_path (self w))) as [pages|e'];
      cbn in Hfail.
    - unfold mbind at 1, M_bind at 1, bind at 1.
      by rewrite (extract_pages_raises pages "" e w Hfail).
    - by inversion Hfail. }
  rewrite Hbody. cbn [List.find catches handler].
  destruct (is_FileNotFoundError e); cbn [List.find catches handler];
    [|reflexivity].
  unfold pass, ret. cbv beta.
  match goal with |- _ = ?rhs => destruct rhs as [[[]|e2] w2] end;
    reflexivity.
Qed.

Lemma _process_input_text_no_pdf (E : env) (w : world) :
  truthy (pdf_input_path (self w)) = false →
  _process_input_text E w =
    (if truthy (str_input (self w)) then
       print "Using string input.";;
       assign (set_aws_client_str (str_input (self w)))
     else _random_text_input E) w.
Proof.
  intros Hpath. unfold _process_input_text.
  unfold mbind at 1, M_bind at 1, bind at 1, this. by rewrite Hpath.
Qed.

Lemma each_page_terminated_joined (texts : list string) :
  texts ≠ [] → each_page_terminated texts = String.concat LF texts +:+ LF.
Proof.
  induction texts as [|t [|t' rest] IH]; intros Hne; [done| |].
  - cbn. by rewrite append_nil_r.
  - change (t +:+ LF +:+ each_page_terminated (t' :: rest)
            = (t +:+ LF +:+ String.concat LF (t' :: rest)) +:+ LF).
    rewrite IH by discriminate. by rewrite !append_assoc.
Qed.

Lemma each_page_terminated_nonempty (texts : list string) :
  texts ≠ [] → each_page_terminated texts ≠ "".
Proof. destruct texts as [|t rest]; [done|]. intros _. apply append_LF_nonempty. Qed.

Lemma truthy_nonempty (s : string) : truthy s = true → s ≠ "".
Proof. apply (bool_decide_eq_true_1 _). Qed.

(** C4, as amended: for a PDF that reads well and has at least one page,
    the resolved text is the texts of the pages in page order with a line
    feed between them and one more line feed after the last page: every
    page is terminated by a line feed. *)
Theorem pdf_text_pages_in_order (E : env) (w : world) (texts : list string) :
  truthy (pdf_input_path (self w)) = true →
  PdfReader E (pdf_input_path (self w)) = Return (Return <$> texts) →
  texts ≠ [] →
  (_process_input_text E w).1 = Return tt
  ∧ aws_client_str (self (_process_input_text E w).2)
    = String.concat LF texts +:+ LF
  ∧ aws_client_str (self (_process_input_text E w).2)
    = each_page_terminated texts.
Proof.
  intros Hpath Hread Hne.
  rewrite (_process_input_text_pages E w texts Hpath Hread).
  split; [reflexivity|]. split; [|reflexivity].
  cbn. by apply each_page_terminated_joined.
Qed.

(** C5: with a PDF path given, an extraction that fails with anything but
    [FileNotFoundError] makes [_process_input_text] raise that exception,
    with no text resolved and nothing printed; only [FileNotFoundError]
    leads to the literal string or, without one, to a sentence of the
    pool. *)
Theorem only_file_not_found_falls_back (E : env) (w : world) (e : exn) :
  truthy (pdf_input_path (self w)) = true →
  extraction_failure (PdfReader E (pdf_input_path (self w))) = Some e →
  (is_FileNotFoundError e = false →
     _process_input_text E w = (Raise e, w))
  ∧ (is_FileNotFoundError e = true →
     truthy (str_input (self w)) = true →
     (_process_input_text E w).1 = Return tt
     ∧ aws_client_str (self (_process_input_text E w).2)
       = str_input (self w))
  ∧ (is_FileNotFoundError e = true →
     truthy (str_input (self w)) = false →
     sample_sentences E ≠ [] →
     (_process_input_text E w).1 = Return tt
     ∧ aws_client_str (self (_process_input_text E w).2)
       ∈ sample_sentences E).
Proof.
  intros Hpath Hfail.
  rewrite (_process_input_text_failure E w e Hpath Hfail).
  split; [|split].
  - intros ->. reflexivity.
  - intros -> ->. split; reflexivity.
  - intros -> -> Hpool. exec.
    apply (_random_text_input_member E _ Hpool).
Qed.

Lemma pdf_text_pages_in_order_witness :
  aws_client_str
    (self (_process_input_text Sample.E (constructed "poem.pdf" "")).2)
  = String.concat LF ["Hope"; "is"] +:+ LF.
Proof.
  refine (proj1 (proj2
    (pdf_text_pages_in_order Sample.E (constructed "poem.pdf" "")
       ["Hope"; "is"] _ _ _))).
  - reflexivity.
  - reflexivity.
  - discriminate.
Defined.

(** C4, as stated, fails: the document of two pages resolves to a text
    that ends with a line feed, which the pages joined by line feeds do
    not. *)
Lemma pdf_text_not_only_separated :
  PdfReader Sample.E "poem.pdf" = Return (Return <$> ["Hope"; "is"])
  ∧ aws_client_str
      (self (_process_input_text Sample.E (constructed "poem.pdf" "")).2)
    ≠ String.concat LF ["Hope"; "is"].
Proof. split; [reflexivity|]. vm_compute. discriminate. Qed.

Lemma only_file_not_found_falls_back_witness :
  _process_input_text Sample.E (constructed "broken.pdf" "Hello world")
  = (Raise (PdfReadError "EOF marker not found"),
     constructed "broken.pdf" "Hello world")
  ∧ aws_client_str
      (self (_process_input_text Sample.E
               (constructed "nowhere.pdf" "Hello world")).2)
    = "Hello world".
Proof.
  split.
  - refine (proj1
      (only_file_not_found_falls_back Sample.E
         (constructed "broken.pdf" "Hello world")
         (PdfReadError "EOF marker not found") _ _) _); reflexivity.
  - refine (proj2 (proj1 (proj2
      (only_file_not_found_falls_back Sample.E
         (constructed "nowhere.pdf" "Hello world")
         (FileNotFoundError "No such file or directory") _ _)) _ _));
      reflexivity.
Defined.

(** C6, as amended: when no PDF path is given, or the path is not found,
    or the document reads well and has at least one page, and the pool of
    sample sentences is not empty and holds no empty sentence, input
    resolution returns and the resolved text is not empty. *)
Theorem input_resolution_nonempty (E : env) (w : world) :
  sample_sentences E ≠ [] →
  "" ∉ sample_sentences E →
  resolvable E (self w) →
  (_process_input_text E w).1 = Return tt
  ∧ aws_client_str (self (_process_input_text E w).2) ≠ "".
Proof.
  intros Hpool Hsentences Hres.
  destruct (truthy (pdf_input_path (self w))) eqn:Hpath.
  - destruct Hres as [Hnone|msg Hmissing|texts Hne Hread].
    + apply truthy_nonempty in Hpath. done.
    + assert (Hfail :
        extraction_failure (PdfReader E (pdf_input_path (self w)))
        = Some (FileNotFoundError msg)) by (by rewrite Hmissing).
      rewrite (_process_input_text_failure E w _ Hpath Hfail).
      cbn [is_FileNotFoundError]. exec.
      destruct (truthy (str_input (self w))) eqn:Hstr.
      * split; [reflexivity|]. cbn. by apply truthy_nonempty.
      * destruct (_random_text_input_member E
          (with_stdout (λ out, out ++ ["Using random text to tide you over..."])
             (with_stdout (λ out, out ++ ["No valid input string input."])
                (with_stdout
                   (λ out, out ++
                      ["Path not valid. Going to string input. Error: "
                       +:+ msg]) w))) Hpool) as [Hret Hin].
        split; [exact Hret|]. intros Hempty. rewrite Hempty in Hin. done.
    + rewrite (_process_input_text_pages E w texts Hpath Hread).
      split; [reflexivity|]. cbn. by apply each_page_terminated_nonempty.
  - rewrite (_process_input_text_no_pdf E w Hpath).
    destruct (truthy (str_input (self w))) eqn:Hstr.
    + exec. split; [reflexivity|]. by apply truthy_nonempty.
    + destruct (_random_text_input_member E w Hpool) as [Hret Hin].
      split; [exact Hret|]. intros Hempty. rewrite Hempty in Hin. done.
Qed.

Lemma input_resolution_nonempty_witness :
  (_process_input_text Sample.E (constructed "" "")).1 = Return tt
  ∧ aws_client_str
      (self (_process_input_text Sample.E (constructed "" "")).2) ≠ "".
Proof.
  apply (input_resolution_nonempty Sample.E (constructed "" "")).
  - discriminate.
  - apply (bool_decide_eq_false_1 _). reflexivity.
  - apply no_pdf. reflexivity.
Defined.

(** C6, as stated, fails: with a path to a file that is not a PDF and a
    literal string, input resolution raises and no text is resolved,
    although the string is there and the pool is not empty. *)
Lemma broken_pdf_resolves_nothing :
  sample_sentences Sample.E ≠ []
  ∧ (_process_input_text Sample.E
       (constructed "broken.pdf" "Hello world")).1
    = Raise (PdfReadError "EOF marker not found")
  ∧ aws_client_str
      (self (_process_input_text Sample.E
               (constructed "broken.pdf" "Hello world")).2) = "".
Proof. split; [discriminate|]. split; reflexivity. Qed.

(** ** Synthesis and the audio file *)

Lemma complete_tts_no_stream (E : env) (w : world) (polly : polly_client)
    (resp : gmap string (list byte)) :
  client (self w) = Some polly →
  synthesize_speech E polly (synthesis_kwargs (self w)) = Return resp →
  resp !! "AudioStream" = None →
  complete_tts E w =
    (Raise (SystemExit (ExitCode (-1))),
     with_stdout
       (λ out, out ++
          ["`_write_audio_file` error: 'AudioStream' not in response."])
       (with_stdout (λ out, out ++ ["Speech successfully synthesized."])
          (with_self (set_response (Some resp))
             (with_requests (λ sent, sent ++ [synthesis_kwargs (self w)])
                w)))).
Proof.
  intros Hclient Hsynth Hnone.
  unfold complete_tts, _get_synthesized_speech, _write_audio_file. exec.
  rewrite Hclient. cbn. rewrite Hsynth. cbn. rewrite Hnone. reflexivity.
Qed.

(** C8: when the response of the synthesis call has no ["AudioStream"]
    field, [complete_tts] prints the error line and then exits with status
    [-1]; the files on disk are those there were before. *)
Theorem missing_audio_stream_is_fatal (E : env) (w : world)
    (polly : polly_client) (resp : gmap string (list byte)) :
  client (self w) = Some polly →
  synthesize_speech E polly (synthesis_kwargs (self w)) = Return resp →
  resp !! "AudioStream" = None →
  (complete_tts E w).1 = Raise (SystemExit (ExitCode (-1)))
  ∧ files (complete_tts E w).2 = files w
  ∧ last (stdout (complete_tts E w).2)
    = Some "`_write_audio_file` error: 'AudioStream' not in response.".
Proof.
  intros Hclient Hsynth Hnone.
  rewrite (complete_tts_no_stream E w polly resp Hclient Hsynth Hnone).
  split; [reflexivity|]. split; [reflexivity|].
  cbn. by rewrite last_snoc.
Qed.

Lemma missing_audio_stream_is_fatal_witness :
  (complete_tts Sample.E_no_stream greet).1
  = Raise (SystemExit (ExitCode (-1)))
  ∧ files (complete_tts Sample.E_no_stream greet).2 = files greet.
Proof.
  destruct (missing_audio_stream_is_fatal Sample.E_no_stream greet
              (PollyClient "key" "secret" "us-east-1")
              {[ "ContentType" := [] ]}) as (Hexit & Hfiles & _).
  - reflexivity.
  - reflexivity.
  - reflexivity.
  - split; [exact Hexit|exact Hfiles].
Defined.

(** ** The output file name *)

Lemma alphabet_url_safe (i : nat) :
  i < 64 → secrets.url_safe (nth i secrets.alphabet secrets.pad) = true.
Proof.
  intros Hi.
  do 64 (destruct i as [|i]; [reflexivity|]). lia.
Qed.

Lemma sextet_url_safe (n : N) : secrets.url_safe (secrets.sextet n) = true.
Proof.
  unfold secrets.sextet. apply alphabet_url_safe.
  change 63%N with (N.ones 6). rewrite N.land_ones.
  pose proof (N.mod_upper_bound n (2 ^ 6)) as Hlt.
  change (2 ^ 6)%N with 64%N in *. lia.
Qed.

Lemma sextet_not_pad (n : N) : secrets.sextet n ≠ secrets.pad.
Proof.
  intros Heq. pose proof (sextet_url_safe n) as Hsafe.
  rewrite Heq in Hsafe. discriminate.
Qed.

Lemma rstrip_pad_sextets (l : list ascii) :
  Forall (λ c, c ≠ secrets.pad) l → secrets.rstrip_pad l = l.
Proof.
  induction 1 as [|c l Hc Hl IH]; [reflexivity|].
  cbn [secrets.rstrip_pad]. rewrite IH.
  destruct l; [|reflexivity]. by rewrite bool_decide_eq_false_2.
Qed.

(** A token made from six octets has eight characters, all URL-safe. *)
Lemma token_of_six_bytes (octets : list byte) :
  length octets = 6 →
  String.length (secrets.token_of_bytes octets) = 8
  ∧ Forall (λ c, secrets.url_safe c = true)
      (list_ascii_of_string (secrets.token_of_bytes octets)).
Proof.
  intros Hlen.
  destruct octets as [|b0 [|b1 [|b2 [|b3 [|b4 [|b5 [|]]]]]]]; try discriminate.
  unfold secrets.token_of_bytes. cbn [secrets.urlsafe_b64encode].
  rewrite rstrip_pad_sextets
    by (repeat constructor; apply sextet_not_pad).
  split; [reflexivity|].
  rewrite list_ascii_of_string_of_list_ascii.
  repeat constructor; apply sextet_url_safe.
Qed.

Lemma _determine_output_filename_prefix (E : env) (w : world) :
  truthy (user_file_prefix (self w)) = true →
  _determine_output_filename E w =
    (Return tt,
     with_self
       (set_output_filename
          (user_file_prefix (self w) +:+ "." +:+ output_format (self w)))
       w).
Proof.
  intros Hprefix. unfold _determine_output_filename. exec.
  rewrite Hprefix. reflexivity.
Qed.

Lemma _determine_output_filename_random (E : env) (w : world) :
  truthy (user_file_prefix (self w)) = false →
  let token :=
    secrets.token_of_bytes (entropy E <$> seq (entropy_used w) 6) in
  (_determine_output_filename E w).1 = Return tt
  ∧ output_filename (self (_determine_output_filename E w).2)
    = "pdf_tts_" +:+ token +:+ "." +:+ output_format (self w).
Proof.
  intros Hprefix. unfold _determine_output_filename, token_urlsafe,
    token_bytes. exec.
  rewrite Hprefix. split; reflexivity.
Qed.

(** C9: with the prefix ["foo"] and the format ["mp3"] the file name is
    ["foo.mp3"]; with no prefix it is ["pdf_tts_"], a token, a dot and the
    format, where the token is the URL-safe encoding of six octets of
    entropy: eight characters among letters, digits, [-] and [_]. *)
Theorem output_filename_resolved (E : env) (w : world) :
  (_determine_output_filename E w).1 = Return tt
  ∧ (user_file_prefix (self w) = "foo" →
     output_format (self w) = "mp3" →
     output_filename (self (_determine_output_filename E w).2) = "foo.mp3")
  ∧ (user_file_prefix (self w) = "" →
     ∃ (octets : list byte) (token : string),
       octets = entropy E <$> seq (entropy_used w) 6
       ∧ 6 ≤ length octets
       ∧ token = secrets.token_of_bytes octets
       ∧ String.length token = 8
       ∧ Forall (λ c, secrets.url_safe c = true)
           (list_ascii_of_string token)
       ∧ output_filename (self (_determine_output_filename E w).2)
         = "pdf_tts_" +:+ token +:+ "." +:+ output_format (self w)).
Proof.
  split; [|split].
  - destruct (truthy (user_file_prefix (self w))) eqn:Hprefix.
    + by rewrite _determine_output_filename_prefix.
    + by apply _determine_output_filename_random.
  - intros Hfoo Hmp3.
    rewrite _determine_output_filename_prefix by (by rewrite Hfoo).
    cbn. by rewrite Hfoo, Hmp3.
  - intros Hnone.
    assert (Hprefix : truthy (user_file_prefix (self w)) = false)
      by (by rewrite Hnone).
    assert (Hlen : length (entropy E <$> seq (entropy_used w) 6) = 6)
      by (by rewrite length_fmap, length_seq).
    destruct (token_of_six_bytes _ Hlen) as [Hsize Hsafe].
    eexists _, _. split; [reflexivity|]. split; [lia|].
    split; [reflexivity|]. split; [exact Hsize|]. split; [exact Hsafe|].
    by apply _determine_output_filename_random.
Qed.

Lemma output_filename_resolved_witness :
  output_filename
    (self (_determine_output_filename Sample.E
             (with_self
                (λ _, initial_attributes "key" "secret" "" "" false "foo")
                boot)).2)
  = "foo.mp3".
Proof.
  refine (proj1 (proj2
    (output_filename_resolved Sample.E
       (with_self (λ _, initial_attributes "key" "secret" "" "" false "foo")
          boot))) _ _); reflexivity.
Defined.

(** ** Further properties of the methods *)

(** *** What the setters leave alone *)

Lemma preserves_modify (I : world → Prop) (f : world → world) :
  (∀ w, I w → I (f w)) → preserves I (modify f).
Proof. intros Hf w Hw. apply Hf, Hw. Qed.

Ltac keeps_step :=
  first
    [ apply preserves_bind; [|intros ?]
    | apply preserves_try; [| repeat constructor; intros ? | |]
    | apply preserves_modify; intros ? ?; assumption
    | solve [auto with preserves] ].

Ltac keeps := repeat (keeps_step; cbn [handler]).

Lemma dict_getitem_keeps (I : world → Prop) (d : list (string * string))
    (k : string) :
  preserves I (dict_getitem d k).
Proof.
  unfold dict_getitem. destruct (dict_lookup d k); auto with preserves.
Qed.

Lemma call_keeps_frame (c : setter_call) (w0 : world) :
  preserves (λ w, frame w = frame w0) (call c).
Proof.
  destruct c as [v|f|r|a]; cbn [call].
  - unfold choose_voice_id, choose_voice_id_try, print, assign.
    keeps. case_match; keeps.
  - unfold choose_output_format, choose_output_format_try, print, assign.
    keeps. case_match; keeps.
  - unfold choose_sample_rate, choose_sample_rate_try, print, assign.
    keeps. case_match; keeps.
  - unfold choose_eng_accent, choose_eng_accent_try, print, assign.
    keeps; try apply dict_getitem_keeps. case_match; keeps.
Qed.

Lemma calls_keep_frame (cs : list setter_call) (w0 : world) :
  preserves (λ w, frame w = frame w0) (calls cs).
Proof.
  induction cs as [|c cs IH]; cbn [calls].
  - apply preserves_pass.
  - apply preserves_bind; [apply call_keeps_frame|intros _; exact IH].
Qed.

(** X1: the setters change the four configuration attributes and print; the
    text, the file name, the client, the response, the files and the random
    sources stay as they were.  In particular the file name keeps the
    extension it got at construction when the format is set later. *)
Theorem setters_change_only_configuration (cs : list setter_call)
    (w : world) :
  frame (calls cs w).2 = frame w
  ∧ output_filename (self (calls cs w).2) = output_filename (self w).
Proof.
  assert (H : frame (calls cs w).2 = frame w)
    by (by apply (calls_keep_frame cs w)).
  split; [exact H|].
  exact (f_equal (λ t, t.1.1.1.1.1.1.1.1.1.1.2) H).
Qed.


Lemma choose_eng_accent_unknown_outcome (code : string) (w : world) :
  code ∉ dict_keys eng_language_code_dict →
  (choose_eng_accent code w).1 =
    match dict_lookup eng_language_code_dict (language_code (self w)) with
    | Some _ => Return tt
    | None => Raise (KeyError (language_code (self w)))
    end.
Proof.
  intros Hcode.
  unfold choose_eng_accent, choose_eng_accent_try, dict_contains,
    dict_getitem.
  rewrite bool_decide_eq_false_2 by exact Hcode. exec.
  destruct (dict_lookup eng_language_code_dict (language_code (self w)));
    reflexivity.
Qed.



Lemma config_accent (o : PollyTTS) (c : string * string * string * string) :
  config o = c → language_code o = c.2.
Proof. intros <-. reflexivity. Qed.

Lemma call_keeps_accent_valid (c : setter_call) (w : world) :
  accent_valid w →
  (call c w).1 = Return tt ∧ accent_valid (call c w).2.
Proof.
  intros Hvalid. unfold accent_valid in *.
  destruct c as [v|f|r|a]; cbn [call].
  - split; [apply choose_voice_id_returns|].
    destruct (decide (v ∈ voice_ids)) as [Hv|Hv].
    + by rewrite (config_accent _ _ (choose_voice_id_known v w Hv)).
    + by rewrite (config_accent _ _ (choose_voice_id_unknown v w Hv)).
  - destruct (choose_output_format_config f w) as [Hr Hc].
    split; [exact Hr|]. by rewrite (config_accent _ _ Hc).
  - destruct (choose_sample_rate_config r w) as [Hr Hc].
    split; [exact Hr|]. by rewrite (config_accent _ _ Hc).
  - destruct (decide (a ∈ dict_keys eng_language_code_dict)) as [Ha|Ha].
    + destruct (choose_eng_accent_known a w Ha) as [Hr Hc].
      split; [exact Hr|]. by rewrite (config_accent _ _ Hc).
    + split.
      * rewrite choose_eng_accent_unknown_outcome by done.
        destruct (dict_lookup_is_Some _ _ Hvalid) as [accent ->].
        reflexivity.
      * by rewrite (config_accent _ _ (choose_eng_accent_unknown a w Ha)).
Qed.

Lemma calls_return (cs : list setter_call) (w : world) :
  accent_valid w →
  (calls cs w).1 = Return tt ∧ accent_valid (calls cs w).2.
Proof.
  revert w. induction cs as [|c cs IH]; intros w Hvalid; cbn [calls].
  - split; [reflexivity|exact Hvalid].
  - destruct (call_keeps_accent_valid c w Hvalid) as [Hret Hvalid'].
    rewrite (seq_returns _ _ tt w Hret). by apply IH.
Qed.

Lemma constructed_accent_valid (E : env)
    (access_key secret_access_key path text : string) (temp : bool)
    (pre : string) (w : world) :
  accent_valid
    (__init__ E access_key secret_access_key path text temp pre w).2.
Proof.
  unfold accent_valid.
  rewrite (config_accent _ _
             (config___init__ E access_key secret_access_key path text temp
                pre w)).
  apply (bool_decide_eq_true_1 _). reflexivity.
Qed.



Lemma call_format_rate (c : setter_call) (w : world) :
  output_format (self (call c w).2)
  = (if sets_format c then "16000" else output_format (self w))
  ∧ sample_rate (self (call c w).2)
    = (if sets_rate c then "16000" else sample_rate (self w)).
Proof.
  assert (Hcfg : ∀ o cfg, config o = cfg →
            output_format o = cfg.1.1.2 ∧ sample_rate o = cfg.1.2)
    by (by intros o cfg <-).
  destruct c as [v|f|r|a]; cbn [call sets_format sets_rate].
  - destruct (decide (v ∈ voice_ids)) as [Hv|Hv].
    + apply (Hcfg _ _ (choose_voice_id_known v w Hv)).
    + apply (Hcfg _ _ (choose_voice_id_unknown v w Hv)).
  - apply (Hcfg _ _ (proj2 (choose_output_format_config f w))).
  - apply (Hcfg _ _ (proj2 (choose_sample_rate_config r w))).
  - destruct (decide (a ∈ dict_keys eng_language_code_dict)) as [Ha|Ha].
    + apply (Hcfg _ _ (proj2 (choose_eng_accent_known a w Ha))).
    + apply (Hcfg _ _ (choose_eng_accent_unknown a w Ha)).
Qed.

Lemma calls_format_rate (cs : list setter_call) (w : world) :
  accent_valid w →
  output_format (self (calls cs w).2)
  = (if existsb sets_format cs then "16000" else output_format (self w))
  ∧ sample_rate (self (calls cs w).2)
    = (if existsb sets_rate cs then "16000" else sample_rate (self w)).
Proof.
  revert w. induction cs as [|c cs IH]; intros w Hvalid;
    cbn [calls existsb].
  - split; reflexivity.
  - destruct (call_keeps_accent_valid c w Hvalid) as [Hret Hvalid'].
    rewrite (seq_returns _ _ tt w Hret).
    destruct (IH _ Hvalid') as [Hf Hr].
    destruct (call_format_rate c w) as [Hf1 Hr1].
    rewrite Hf, Hr, Hf1, Hr1. split.
    + destruct (sets_format c), (existsb sets_format cs); reflexivity.
    + destruct (sets_rate c), (existsb sets_rate cs); reflexivity.
Qed.



(** *** The random choices *)

(** X5: [random_voice_id] always returns; the voice it sets is one of
    [voice_ids], it takes one draw from the random source, and the format,
    the rate and the accent are as before. *)
Theorem random_voice_id_valid (E : env) (w : world) :
  (random_voice_id E w).1 = Return tt
  ∧ voice_id (self (random_voice_id E w).2) ∈ voice_ids
  ∧ draws (random_voice_id E w).2 = S (draws w)
  ∧ output_format (self (random_voice_id E w).2) = output_format (self w)
  ∧ sample_rate (self (random_voice_id E w).2) = sample_rate (self w)
  ∧ language_code (self (random_voice_id E w).2) = language_code (self w).
Proof.
  assert (Hne : voice_ids ≠ []) by discriminate.
  destruct (random_choice_member E voice_ids w Hne) as (v & Hv & Hchoice).
  unfold random_voice_id, mbind, M_bind, bind.
  rewrite Hchoice. exec. repeat split. exact Hv.
Qed.

(** X6: [random_eng_accent] always returns; the accent it sets is a key of the
    accent table, it takes one draw from the random source, and the voice,
    the format and the rate are as before. *)
Theorem random_eng_accent_valid (E : env) (w : world) :
  (random_eng_accent E w).1 = Return tt
  ∧ accent_valid (random_eng_accent E w).2
  ∧ draws (random_eng_accent E w).2 = S (draws w)
  ∧ voice_id (self (random_eng_accent E w).2) = voice_id (self w)
  ∧ output_format (self (random_eng_accent E w).2) = output_format (self w)
  ∧ sample_rate (self (random_eng_accent E w).2) = sample_rate (self w).
Proof.
  assert (Hne : dict_keys eng_language_code_dict ≠ []) by discriminate.
  destruct (random_choice_member E _ w Hne) as (code & Hcode & Hchoice).
  destruct (dict_lookup_is_Some _ _ Hcode) as [accent Haccent].
  unfold random_eng_accent, mbind, M_bind, bind.
  rewrite Hchoice. unfold dict_getitem. rewrite Haccent. exec.
  repeat split. exact Hcode.
Qed.

(** *** Input resolution without a document, and with an empty one *)

Lemma _random_text_input_draw (E : env) (w : world) :
  sample_sentences E ≠ [] →
  ∃ sentence,
    sentence ∈ sample_sentences E
    ∧ _random_text_input E w =
        (Return tt,
         with_self (set_aws_client_str sentence)
           (with_stdout
              (λ out, out ++ ["Random text generated: " +:+ sentence])
              (with_draws S w))).
Proof.
  intros Hpool.
  destruct (random_choice_member E _ w Hpool) as (x & Hx & Hchoice).
  exists x. split; [exact Hx|].
  unfold _random_text_input, mbind, M_bind, bind. rewrite Hchoice.
  reflexivity.
Qed.

Lemma _random_text_input_empty (E : env) (w : world) :
  sample_sentences E = [] →
  _random_text_input E w
  = (Raise (IndexError "Cannot choose from an empty sequence"), w).
Proof.
  intros Hpool. unfold _random_text_input, mbind, M_bind, bind,
    random_choice. rewrite Hpool. reflexivity.
Qed.

(** X7: without a PDF path, a literal string that is not empty becomes the
    resolved text as it is and the random source is not touched; without
    a literal string either, the text is a sentence of the pool, for one
    draw, and when the pool is empty the method raises [IndexError] and
    resolves nothing. *)
Theorem no_pdf_literal_or_sample (E : env) (w : world) :
  truthy (pdf_input_path (self w)) = false →
  (truthy (str_input (self w)) = true →
     (_process_input_text E w).1 = Return tt
     ∧ aws_client_str (self (_process_input_text E w).2)
       = str_input (self w)
     ∧ draws (_process_input_text E w).2 = draws w)
  ∧ (truthy (str_input (self w)) = false →
     sample_sentences E ≠ [] →
     (_process_input_text E w).1 = Return tt
     ∧ aws_client_str (self (_process_input_text E w).2)
       ∈ sample_sentences E
     ∧ draws (_process_input_text E w).2 = S (draws w))
  ∧ (truthy (str_input (self w)) = false →
     sample_sentences E = [] →
     _process_input_text E w
     = (Raise (IndexError "Cannot choose from an empty sequence"), w)).
Proof.
  intros Hpath. rewrite (_process_input_text_no_pdf E w Hpath).
  split; [|split].
  - intros ->. repeat split.
  - intros -> Hpool.
    destruct (_random_text_input_draw E w Hpool) as (x & Hx & ->).
    repeat split. exact Hx.
  - intros -> Hpool. by apply _random_text_input_empty.
Qed.

Lemma no_pdf_literal_or_sample_witness :
  aws_client_str
    (self (_process_input_text Sample.E (constructed "" "Hello world")).2)
  = "Hello world"
  ∧ aws_client_str
      (self (_process_input_text Sample.E (constructed "" "")).2)
    ∈ sample_sentences Sample.E
  ∧ _process_input_text Faulty.E_empty_pool (constructed "" "")
    = (Raise (IndexError "Cannot choose from an empty sequence"),
       constructed "" "").
Proof.
  destruct (no_pdf_literal_or_sample Sample.E (constructed "" "Hello world"))
    as (Hliteral & _); [reflexivity|].
  destruct (no_pdf_literal_or_sample Sample.E (constructed "" ""))
    as (_ & Hsample & _); [reflexivity|].
  destruct (no_pdf_literal_or_sample Faulty.E_empty_pool (constructed "" ""))
    as (_ & _ & Hempty); [reflexivity|].
  split; [|split].
  - apply Hliteral. reflexivity.
  - apply Hsample; [reflexivity|discriminate].
  - apply Hempty; reflexivity.
Defined.

(** X8: a document that opens and has no page resolves to the empty text: the
    method returns, reports success, and does not turn to the literal
    string or to the pool, whatever they hold. *)
Theorem empty_pdf_resolves_empty_text (E : env) (w : world) :
  truthy (pdf_input_path (self w)) = true →
  PdfReader E (pdf_input_path (self w)) = Return [] →
  (_process_input_text E w).1 = Return tt
  ∧ aws_client_str (self (_process_input_text E w).2) = ""
  ∧ draws (_process_input_text E w).2 = draws w
  ∧ last (stdout (_process_input_text E w).2)
    = Some "PDF input file processed successfully.".
Proof.
  intros Hpath Hread.
  rewrite (_process_input_text_pages E w [] Hpath Hread).
  repeat split. cbn. by rewrite last_snoc.
Qed.

Lemma empty_pdf_resolves_empty_text_witness :
  (_process_input_text Sample.E (constructed "empty.pdf" "Hello world")).1
  = Return tt
  ∧ aws_client_str
      (self (_process_input_text Sample.E
               (constructed "empty.pdf" "Hello world")).2) = "".
Proof.
  destruct (empty_pdf_resolves_empty_text Sample.E
              (constructed "empty.pdf" "Hello world"))
    as (Hret & Htext & _); [reflexivity|reflexivity|].
  split; [exact Hret|exact Htext].
Defined.

(** *** The client *)


Lemma _initialize_client_fails (E : env) (w : world) (e : exn) :
  boto3_client E "polly" (_access_key (self w)) (_secret_access_key (self w))
    "us-east-1" = Raise e →
  _initialize_client E w =
    (if is_BotoCoreError_or_ClientError e
     then Raise (SystemExit
                   (ExitMessage ("Failed to initialize AWS Polly client: "
                                 +:+ exn_str e)))
     else Raise e,
     w).
Proof.
  intros Hboto. unfold _initialize_client. exec. rewrite Hboto. cbn.
  destruct (is_BotoCoreError_or_ClientError e); reflexivity.
Qed.

(** X9: when [boto3.client] raises [BotoCoreError] or [ClientError],
    construction exits with the message that names the failure, and it
    stops there: the attributes have their initial values, so no file name
    and no text are resolved, nothing is printed, and neither the entropy
    nor the random source nor the PDF reader is used.  Another exception
    of [boto3.client] leaves construction as it is, at the same point. *)
Theorem construction_stops_at_client_failure (E : env)
    (access_key secret_access_key path text : string) (temp : bool)
    (pre : string) (w : world) (e : exn) :
  boto3_client E "polly" access_key secret_access_key "us-east-1" = Raise e →
  __init__ E access_key secret_access_key path text temp pre w =
    (if is_BotoCoreError_or_ClientError e
     then Raise (SystemExit
                   (ExitMessage ("Failed to initialize AWS Polly client: "
                                 +:+ exn_str e)))
     else Raise e,
     with_self
       (λ _, initial_attributes access_key secret_access_key path text temp
               pre) w).
Proof.
  intros Hboto. unfold __init__.
  unfold mbind at 1, M_bind at 1, bind at 1, assign, modify.
  unfold mbind at 1, M_bind at 1, bind at 1.
  rewrite _initialize_client_fails with (e := e) by exact Hboto.
  destruct (is_BotoCoreError_or_ClientError e); reflexivity.
Qed.

Lemma construction_stops_at_client_failure_witness :
  (__init__ Faulty.E_no_credentials "key" "secret" "poem.pdf" "Hello world"
     false "" boot).1
  = Raise (SystemExit
             (ExitMessage
                "Failed to initialize AWS Polly client: InvalidClientTokenId")).
Proof.
  rewrite (construction_stops_at_client_failure Faulty.E_no_credentials
             "key" "secret" "poem.pdf" "Hello world" false "" boot
             (ClientError "InvalidClientTokenId")); reflexivity.
Defined.

(** *** Synthesis and the audio file, on every path *)

Lemma _get_synthesized_speech_ok (E : env) (w : world)
    (polly : polly_client) (resp : gmap string (list byte)) :
  client (self w) = Some polly →
  synthesize_speech E polly (synthesis_kwargs (self w)) = Return resp →
  _get_synthesized_speech E w =
    (Return tt,
     with_stdout (λ out, out ++ ["Speech successfully synthesized."])
       (with_self (set_response (Some resp))
          (with_requests (λ sent, sent ++ [synthesis_kwargs (self w)]) w))).
Proof.
  intros Hclient Hsynth. unfold _get_synthesized_speech. exec.
  rewrite Hclient. cbn. rewrite Hsynth. reflexivity.
Qed.

Lemma _write_audio_file_stream (E : env) (w : world)
    (resp : gmap string (list byte)) (audio : list byte) :
  response (self w) = Some resp →
  resp !! "AudioStream" = Some audio →
  _write_audio_file E w =
    match open_wb E (output_path E (self w)) with
    | Return _ =>
        (Return tt,
         with_stream_closed true
           (with_stdout
              (λ out, out ++ ["Audio file successfully written to "
                              +:+ output_path E (self w) +:+ " "])
              (with_files (insert (output_path E (self w)) audio) w)))
    | Raise e =>
        if is_IOError e then
          (Raise (SystemExit (ExitCode (-1))),
           with_stream_closed true
             (with_stdout
                (λ out, out ++ ["`_write_audio_file` error: " +:+ exn_str e])
                w))
        else (Raise e, with_stream_closed true w)
    end.
Proof.
  intros Hresp Haudio. unfold _write_audio_file, output_path. exec.
  rewrite Hresp, Haudio. cbn.
  destruct (open_wb E _) as [[]|e]; cbn; [reflexivity|].
  destruct (is_IOError e); reflexivity.
Qed.



Lemma _get_synthesized_speech_fails (E : env) (w : world)
    (polly : polly_client) (e : exn) :
  client (self w) = Some polly →
  synthesize_speech E polly (synthesis_kwargs (self w)) = Raise e →
  _get_synthesized_speech E w =
    if is_BotoCoreError_or_ClientError e then
      (Raise (SystemExit (ExitCode (-1))),
       with_stdout
         (λ out, out ++ ["`_get_synthesized_speech` error: " +:+ exn_str e])
         (with_requests (λ sent, sent ++ [synthesis_kwargs (self w)]) w))
    else
      (Raise e,
       with_requests (λ sent, sent ++ [synthesis_kwargs (self w)]) w).
Proof.
  intros Hclient Hsynth. unfold _get_synthesized_speech. exec.
  rewrite Hclient. cbn. rewrite Hsynth. cbn.
  destruct (is_BotoCoreError_or_ClientError e); reflexivity.
Qed.

(** X11: when the synthesis call raises [BotoCoreError] or [ClientError],
    [complete_tts] prints the error and exits with status [-1] before the
    audio file is looked at: no file changes and the response is the one
    there was. *)
Theorem synthesis_failure_is_fatal (E : env) (w : world)
    (polly : polly_client) (e : exn) :
  client (self w) = Some polly →
  synthesize_speech E polly (synthesis_kwargs (self w)) = Raise e →
  is_BotoCoreError_or_ClientError e = true →
  (complete_tts E w).1 = Raise (SystemExit (ExitCode (-1)))
  ∧ files (complete_tts E w).2 = files w
  ∧ response (self (complete_tts E w).2) = response (self w)
  ∧ stream_closed (complete_tts E w).2 = stream_closed w
  ∧ last (stdout (complete_tts E w).2)
    = Some ("`_get_synthesized_speech` error: " +:+ exn_str e).
Proof.
  intros Hclient Hsynth Hboto.
  unfold complete_tts, mbind, M_bind, bind.
  rewrite (_get_synthesized_speech_fails E w polly e Hclient Hsynth), Hboto.
  repeat split. cbn. by rewrite last_snoc.
Qed.

Lemma synthesis_failure_is_fatal_witness :
  (complete_tts Faulty.E_service_down greet).1
  = Raise (SystemExit (ExitCode (-1)))
  ∧ files (complete_tts Faulty.E_service_down greet).2 = files greet.
Proof.
  destruct (synthesis_failure_is_fatal Faulty.E_service_down greet
              (PollyClient "key" "secret" "us-east-1")
              (ClientError "ServiceFailure")) as (Hexit & Hfiles & _);
    [reflexivity|reflexivity|reflexivity|].
  split; [exact Hexit|exact Hfiles].
Defined.

(** X12: when the response has an audio stream but the output path cannot be
    opened ([IOError], which [FileNotFoundError] and [PermissionError]
    are), [_write_audio_file] prints the error and exits with status [-1];
    no file changes, and the stream is closed all the same. *)
Theorem write_failure_is_fatal (E : env) (w : world)
    (resp : gmap string (list byte)) (audio : list byte) (e : exn) :
  response (self w) = Some resp →
  resp !! "AudioStream" = Some audio →
  open_wb E (output_path E (self w)) = Raise e →
  is_IOError e = true →
  (_write_audio_file E w).1 = Raise (SystemExit (ExitCode (-1)))
  ∧ files (_write_audio_file E w).2 = files w
  ∧ stream_closed (_write_audio_file E w).2 = true
  ∧ last (stdout (_write_audio_file E w).2)
    = Some ("`_write_audio_file` error: " +:+ exn_str e).
Proof.
  intros Hresp Haudio Hopen Hio.
  rewrite (_write_audio_file_stream E w resp audio Hresp Haudio), Hopen, Hio.
  repeat split. cbn. by rewrite last_snoc.
Qed.

Lemma write_failure_is_fatal_witness :
  (complete_tts Faulty.E_read_only greet).1
  = Raise (SystemExit (ExitCode (-1)))
  ∧ files (complete_tts Faulty.E_read_only greet).2 = ∅.
Proof.
  assert (Hsynth :
    _get_synthesized_speech Faulty.E_read_only greet
    = (Return tt, (_get_synthesized_speech Faulty.E_read_only greet).2))
    by reflexivity.
  unfold complete_tts, mbind, M_bind, bind. rewrite Hsynth.
  destruct (write_failure_is_fatal Faulty.E_read_only
              (_get_synthesized_speech Faulty.E_read_only greet).2
              {[ "AudioStream" := Sample.audio ]} Sample.audio
              (PermissionError "Permission denied"))
    as (Hexit & Hfiles & _); [reflexivity|reflexivity|reflexivity|reflexivity|].
  split; [exact Hexit|]. rewrite Hfiles. reflexivity.
Defined.

(** X13: whatever the response and the file system do, [_write_audio_file]
    changes no file other than the one at the output path; and when the
    response has an audio stream, the stream is closed afterwards on every
    path, also when the write fails or raises something the method does
    not catch. *)
Theorem write_audio_file_confined (E : env) (w : world) :
  (∀ path, path ≠ output_path E (self w) →
     files (_write_audio_file E w).2 !! path = files w !! path)
  ∧ (∀ resp, response (self w) = Some resp →
       is_Some (resp !! "AudioStream") →
       stream_closed (_write_audio_file E w).2 = true).
Proof.
  split.
  - intros path Hpath.
    destruct (response (self w)) as [resp|] eqn:Hresp.
    + destruct (resp !! "AudioStream") as [audio|] eqn:Haudio.
      * rewrite (_write_audio_file_stream E w resp audio Hresp Haudio).
        destruct (open_wb E _) as [[]|e]; [|destruct (is_IOError e)];
          cbn; [by apply lookup_insert_ne|reflexivity|reflexivity].
      * unfold _write_audio_file. exec. rewrite Hresp, Haudio. reflexivity.
    + unfold _write_audio_file. exec. rewrite Hresp. reflexivity.
  - intros resp Hresp [audio Haudio].
    rewrite (_write_audio_file_stream E w resp audio Hresp Haudio).
    destruct (open_wb E _) as [[]|e]; [|destruct (is_IOError e)];
      reflexivity.
Qed.

Lemma write_audio_file_confined_witness :
  files (_write_audio_file Sample.E
           (_get_synthesized_speech Sample.E greet).2).2 !! "other.mp3"
  = None.
Proof.
  rewrite (proj1 (write_audio_file_confined Sample.E
                    (_get_synthesized_speech Sample.E greet).2)).
  - reflexivity.
  - discriminate.
Defined.

(** *** The file name attribute *)

Lemma truthy_false (s : string) : truthy s = false → s = "".
Proof.
  intros Hs. apply (bool_decide_eq_false_1 _) in Hs.
  destruct (decide (s = "")) as [Heq|Hne]; [exact Heq|]. by destruct Hs.
Qed.

Lemma _determine_output_filename_token (E : env) (w : world) :
  truthy (user_file_prefix (self w)) = false →
  let token :=
    secrets.token_of_bytes (entropy E <$> seq (entropy_used w) 6) in
  _determine_output_filename E w =
    (Return tt,
     with_self
       (set_output_filename
          (("pdf_tts_" +:+ token) +:+ "." +:+ output_format (self w)))
       (with_self (set_user_file_prefix ("pdf_tts_" +:+ token))
          (with_stdout
             (λ out, out ++ ["Generated random file name: " +:+ token])
             (with_entropy_used (Nat.add 6) w)))).
Proof.
  intros Hprefix. unfold _determine_output_filename, token_urlsafe,
    token_bytes. exec.
  rewrite Hprefix. reflexivity.
Qed.

(** X14: after [_determine_output_filename] the prefix attribute is not empty
    and the file name is that prefix, a dot and the format.  A prefix that
    was given is kept and no entropy is drawn; without one, six octets are
    drawn and the generated prefix is stored in the attribute, so a later
    call finds a prefix and draws nothing. *)
Theorem output_filename_follows_prefix (E : env) (w : world) :
  let w' := (_determine_output_filename E w).2 in
  user_file_prefix (self w') ≠ ""
  ∧ output_filename (self w')
    = user_file_prefix (self w') +:+ "." +:+ output_format (self w')
  ∧ (user_file_prefix (self w) ≠ "" →
     user_file_prefix (self w') = user_file_prefix (self w)
     ∧ entropy_used w' = entropy_used w)
  ∧ (user_file_prefix (self w) = "" → entropy_used w' = 6 + entropy_used w)
  ∧ entropy_used (_determine_output_filename E w').2 = entropy_used w'.
Proof.
  cbv zeta.
  destruct (truthy (user_file_prefix (self w))) eqn:Hprefix.
  - rewrite (_determine_output_filename_prefix E w Hprefix). cbn [snd].
    pose proof (truthy_nonempty _ Hprefix) as Hne.
    split; [exact Hne|]. split; [reflexivity|]. split; [by intros _|].
    split; [by intros Hnone|].
    match goal with
    | |- context [_determine_output_filename E ?w1] =>
        by rewrite (_determine_output_filename_prefix E w1 Hprefix)
    end.
  - pose proof (truthy_false _ Hprefix) as Hnone.
    rewrite (_determine_output_filename_token E w Hprefix). cbn [snd].
    split; [discriminate|]. split; [reflexivity|].
    split; [by intros Hne|]. split; [by intros _|].
    match goal with
    | |- context [_determine_output_filename E ?w1] =>
        by rewrite (_determine_output_filename_prefix E w1 eq_refl)
    end.
Qed.

Lemma output_filename_follows_prefix_witness :
  user_file_prefix
    (self (_determine_output_filename Sample.E
             (with_self (set_user_file_prefix "hope") greet)).2) = "hope".
Proof.
  refine (proj1 (proj1 (proj2 (proj2
    (output_filename_follows_prefix Sample.E
       (with_self (set_user_file_prefix "hope") greet)))) _)).
  discriminate.
Defined.

(** *** Whole runs *)

Lemma seq_raises {A B} (c : M world A) (k : A → M world B) (e : exn)
    (w : world) :
  (c w).1 = Raise e → (c ≫= k) w = (Raise e, (c w).2).
Proof.
  intros Hc. unfold mbind, M_bind, bind.
  destruct (c w) as [r w1]. cbn in Hc. subst r. reflexivity.
Qed.



Lemma extract_pages_keeps (I : world → Prop) (pages : list (outcome string))
    (acc : string) :
  preserves I (extract_pages pages acc).
Proof.
  revert acc. induction pages as [|page rest IH]; intros acc.
  - apply preserves_ret.
  - cbn [extract_pages]. apply preserves_bind; [apply preserves_lift|].
    intros t. apply IH.
Qed.

Lemma __init__keeps_requests (E : env)
    (access_key secret_access_key path text : string) (temp : bool)
    (pre : string) (w : world) :
  requests (__init__ E access_key secret_access_key path text temp pre w).2
  = requests w.
Proof.
  assert (Hchoice : ∀ seq,
            preserves (λ w', requests w' = requests w) (random_choice E seq)).
  { intros seq w' Hw'. unfold random_choice. by destruct (seq !! _). }
  assert (Htoken : ∀ n,
            preserves (λ w', requests w' = requests w) (token_urlsafe E n)).
  { intros n w' Hw'. exact Hw'. }
  assert (Hrandom :
            preserves (λ w', requests w' = requests w)
              (_random_text_input E)).
  { unfold _random_text_input, print, assign. keeps. }
  assert (H : preserves (λ w', requests w' = requests w)
                (__init__ E access_key secret_access_key path text temp pre)).
  { unfold __init__, _initialize_client, _determine_output_filename,
      _process_input_text, print, assign.
    keeps.
    - case_match; keeps.
    - repeat case_match; keeps; try apply extract_pages_keeps. }
  apply H. reflexivity.
Qed.

Lemma _write_audio_file_keeps_requests (E : env) (w : world) :
  requests (_write_audio_file E w).2 = requests w.
Proof.
  destruct (response (self w)) as [resp|] eqn:Hresp.
  - destruct (resp !! "AudioStream") as [audio|] eqn:Haudio.
    + rewrite (_write_audio_file_stream E w resp audio Hresp Haudio).
      destruct (open_wb E _) as [[]|e]; [|destruct (is_IOError e)];
        reflexivity.
    + unfold _write_audio_file. exec. rewrite Hresp, Haudio. reflexivity.
  - unfold _write_audio_file. exec. rewrite Hresp. reflexivity.
Qed.

Lemma complete_tts_requests (E : env) (w : world) :
  requests (complete_tts E w).2 = requests w
  ∨ requests (complete_tts E w).2 = requests w ++ [synthesis_kwargs (self w)].
Proof.
  destruct (client (self w)) as [polly|] eqn:Hclient.
  - right. unfold complete_tts, mbind, M_bind, bind.
    destruct (synthesize_speech E polly (synthesis_kwargs (self w)))
      as [resp|e] eqn:Hsynth.
    + rewrite (_get_synthesized_speech_ok E w polly resp Hclient Hsynth).
      by rewrite _write_audio_file_keeps_requests.
    + rewrite (_get_synthesized_speech_fails E w polly e Hclient Hsynth).
      destruct (is_BotoCoreError_or_ClientError e); reflexivity.
  - left. unfold complete_tts, _get_synthesized_speech. exec.
    rewrite Hclient. reflexivity.
Qed.

(** X16: a run submits at most one request to the service.  When it submits
    one, its voice is one of [voice_ids], its accent is a key of the
    accent table, its rate is ["16000"], its format is ["16000"] when the
    caller called [choose_output_format] and ["mp3"] otherwise, and its
    text is the text that construction resolved, whatever setters were
    called in between. *)
Theorem run_submits_one_request (E : env)
    (access_key secret_access_key path text : string) (temp : bool)
    (pre : string) (cs : list setter_call) (w : world) :
  let r := run E access_key secret_access_key path text temp pre cs w in
  requests r.2 = requests w
  ∨ ∃ request,
      requests r.2 = requests w ++ [request]
      ∧ VoiceId request ∈ voice_ids
      ∧ LanguageCode request ∈ dict_keys eng_language_code_dict
      ∧ SampleRate request = "16000"
      ∧ OutputFormat request
        = (if existsb sets_format cs then "16000" else "mp3")
      ∧ Text request
        = aws_client_str
            (self (__init__ E access_key secret_access_key path text temp
                     pre w).2).
Proof.
  cbv zeta. unfold run.
  set (init := __init__ E access_key secret_access_key path text temp pre).
  pose proof (__init__keeps_requests E access_key secret_access_key path
                text temp pre w) as Hreq.
  pose proof (config___init__ E access_key secret_access_key path text temp
                pre w) as Hcfg.
  pose proof (constructed_accent_valid E access_key secret_access_key path
                text temp pre w) as Hvalid.
  fold init in Hreq, Hcfg, Hvalid |- *.
  destruct (init w).1 as [[]|e] eqn:Hinit.
  - rewrite (seq_returns _ _ tt w Hinit).
    destruct (calls_return cs _ Hvalid) as [Hcalls _].
    rewrite (seq_returns _ _ tt _ Hcalls).
    pose proof (calls_keep_frame cs (init w).2 (init w).2 eq_refl) as Hframe.
    cbv beta in Hframe.
    assert (Hother : on_config other_fields_valid (calls cs (init w).2).2).
    { apply calls_keep_other_fields. unfold on_config. rewrite Hcfg.
      repeat split; apply (bool_decide_eq_true_1 _); reflexivity. }
    destruct Hother as (Hvoice & Hrate & Haccent).
    destruct (calls_format_rate cs _ Hvalid) as [Hf Hr].
    rewrite (f_equal (λ c, c.1.1.2) Hcfg : output_format (self (init w).2)
                                           = "mp3") in Hf.
    rewrite (f_equal (λ c, c.1.2) Hcfg : sample_rate (self (init w).2)
                                         = "16000") in Hr.
    destruct (complete_tts_requests E (calls cs (init w).2).2) as [Hsame|Hone].
    + left. rewrite Hsame.
      rewrite (f_equal (λ t, t.1.2) Hframe : requests _ = requests _).
      exact Hreq.
    + right. exists (synthesis_kwargs (self (calls cs (init w).2).2)).
      rewrite Hone.
      rewrite (f_equal (λ t, t.1.2) Hframe : requests _ = requests _), Hreq.
      split; [reflexivity|]. split; [exact Hvoice|]. split; [exact Haccent|].
      split; [|split].
      * cbn. rewrite Hr. by destruct (existsb sets_rate cs).
      * exact Hf.
      * exact (f_equal (λ t, t.1.1.1.1.1.1.1.1.1.1.1.1.2) Hframe).
  - left. rewrite (seq_raises _ _ e w Hinit). exact Hreq.
Qed.
